(** * The pre-rendering script of ARTEK Homepage

    A shallow embedding of [scripts/utils/prerender-utility/prerender.js]:
    the output-path derivation, the page renderer, the render task
    scheduler, the sitemap generator, the configuration loader and the
    orchestrator ([main]), followed by the properties proved about them.

    Conventions.  A JavaScript string is a [string]; one character of it
    stands for one code unit, so [String.length] is the script's [.length].
    Calls that leave the script (the browser, the preview server, the YAML
    parser, the formatter, the clock) are inputs of the model: each such
    call has an outcome supplied by an environment record ([Env],
    [PageRun]).  Exceptions are explicit ([Completion]); the file system,
    the console and the one reassigned variable of [main] are threaded
    through a state monad ([M]).  [path.join] and [String.prototype.replace]
    follow Node's POSIX implementation and ECMAScript's GetSubstitution.
    The calls of [fs] fail as Node's do: on a file in the place of a
    directory, on a missing directory, on a directory in the place of a
    file, and when the operating system refuses.  Each task of a run has a
    page of its own; the model runs the tasks in queue order, each in the
    file system the one before it leaves, and treats the admission gate
    separately ([gateStep]).

    The first part of the file holds the definitions, the second part the
    lemmas and theorems. *)

From Stdlib Require Import Ascii String List ZArith QArith Lia Bool.
From stdpp Require Import gmap strings list pretty.

Open Scope Z_scope.
Open Scope nat_scope.
Close Scope Q_scope.

(** ** JavaScript string primitives used by the script *)

Module JsString.

(** [s.startsWith(p)]. *)
Fixpoint startsWith (s p : string) : bool :=
  match p, s with
  | EmptyString, _ => true
  | String _ _, EmptyString => false
  | String c p', String d s' => Ascii.eqb c d && startsWith s' p'
  end.

(** [s.includes(p)]: some suffix of [s] starts with [p]. *)
Fixpoint includes (s p : string) : bool :=
  startsWith s p ||
  match s with
  | EmptyString => false
  | String _ s' => includes s' p
  end.

(** [s.endsWith(p)]: some suffix of [s] is [p]. *)
Fixpoint endsWith (s p : string) : bool :=
  String.eqb s p ||
  match s with
  | EmptyString => false
  | String _ s' => endsWith s' p
  end.

(** [s.slice(n)] for [0 <= n]. *)
Fixpoint drop (n : nat) (s : string) : string :=
  match n, s with
  | O, _ => s
  | S _, EmptyString => EmptyString
  | S n', String _ s' => drop n' s'
  end.

(** [s.substring(0, n)]. *)
Fixpoint take (n : nat) (s : string) : string :=
  match n, s with
  | O, _ => EmptyString
  | S _, EmptyString => EmptyString
  | S n', String c s' => String c (take n' s')
  end.

(** [s.split(sep)] for a one-character separator: never the empty list,
    and [split sep ""] is the one-element list holding the empty string. *)
Fixpoint split (sep : ascii) (s : string) : list string :=
  match s with
  | EmptyString => [EmptyString]
  | String c s' =>
      if Ascii.eqb c sep then EmptyString :: split sep s'
      else match split sep s' with
           | seg :: segs => String c seg :: segs
           | [] => [String c EmptyString]
           end
  end.

(** [l.join(sep)]. *)
Fixpoint join (sep : string) (l : list string) : string :=
  match l with
  | [] => EmptyString
  | [x] => x
  | x :: rest => x +:+ sep +:+ join sep rest
  end.

(** The first occurrence of [p] in [s]: the text before it and the text
    after it; [None] when [p] does not occur. *)
Fixpoint cut (s p : string) : option (string * string) :=
  if startsWith s p then Some (EmptyString, drop (String.length p) s)
  else match s with
       | EmptyString => None
       | String c s' =>
           match cut s' p with
           | Some (before, after) => Some (String c before, after)
           | None => None
           end
       end.

(** ECMAScript's GetSubstitution for a string pattern (no capture groups):
    in the replacement text, a dollar sign followed by a dollar sign, an
    ampersand, a backquote or a quote is a pattern; any other dollar sign
    stands for itself. *)
Fixpoint getSubstitution (matched before after template : string) : string :=
  match template with
  | EmptyString => EmptyString
  | String c rest =>
      if Ascii.eqb c "$" then
        match rest with
        | EmptyString => String c EmptyString
        | String d rest' =>
            if Ascii.eqb d "$" then String "$" (getSubstitution matched before after rest')
            else if Ascii.eqb d "&" then matched +:+ getSubstitution matched before after rest'
            else if Ascii.eqb d "`" then before +:+ getSubstitution matched before after rest'
            else if Ascii.eqb d "'" then after +:+ getSubstitution matched before after rest'
            else String c (getSubstitution matched before after rest)
        end
      else String c (getSubstitution matched before after rest)
  end.

(** [s.replace(p, r)] with a string pattern [p]: the first occurrence only,
    the replacement text expanded by [getSubstitution]. *)
Definition replace (s p r : string) : string :=
  match cut s p with
  | None => s
  | Some (before, after) => before +:+ getSubstitution p before after r +:+ after
  end.

(** [s.replace(/^\//, '')]: one leading slash is removed. *)
Definition stripLeadingSlash (s : string) : string :=
  match s with
  | String c s' => if Ascii.eqb c "/" then s' else s
  | EmptyString => s
  end.

(** [s.replace(/\/$/, '')]: one trailing slash is removed. *)
Fixpoint stripTrailingSlash (s : string) : string :=
  match s with
  | EmptyString => EmptyString
  | String c EmptyString => if Ascii.eqb c "/" then EmptyString else s
  | String c s' => String c (stripTrailingSlash s')
  end.

(** No character of [s] is [c]. *)
Fixpoint lacks (c : ascii) (s : string) : bool :=
  match s with
  | EmptyString => true
  | String d s' => negb (Ascii.eqb d c) && lacks c s'
  end.

End JsString.

(** ** Node's [path] module (POSIX flavour), as far as the script uses it *)

Module Path.

(** One step of [normalizeString]: [stack] holds the segments kept so far,
    the last one first.  Empty segments and [.] are dropped; [..] removes
    the last kept segment unless there is none or it is itself [..], in
    which case [..] is kept only when the path is relative. *)
Fixpoint normalizeSegments (allowAboveRoot : bool) (segs stack : list string)
  : list string :=
  match segs with
  | [] => rev stack
  | seg :: rest =>
      if String.eqb seg "" || String.eqb seg "." then
        normalizeSegments allowAboveRoot rest stack
      else if String.eqb seg ".." then
        match stack with
        | top :: below =>
            if String.eqb top ".." then
              normalizeSegments allowAboveRoot rest
                (if allowAboveRoot then seg :: stack else stack)
            else normalizeSegments allowAboveRoot rest below
        | [] =>
            normalizeSegments allowAboveRoot rest
              (if allowAboveRoot then [seg] else [])
        end
      else normalizeSegments allowAboveRoot rest (seg :: stack)
  end.

Definition normalizeString (path : string) (allowAboveRoot : bool) : string :=
  JsString.join "/" (normalizeSegments allowAboveRoot (JsString.split "/" path) []).

(** [path.normalize]. *)
Definition normalize (path : string) : string :=
  if String.eqb path "" then "."
  else
    let isAbsolute := JsString.startsWith path "/" in
    let trailingSeparator := JsString.endsWith path "/" in
    let path' := normalizeString path (negb isAbsolute) in
    if String.eqb path' "" then
      if isAbsolute then "/" else if trailingSeparator then "./" else "."
    else
      (if isAbsolute then "/" else "") +:+ path' +:+
      (if trailingSeparator then "/" else "").

(** The loop of [path.join]: empty arguments are skipped, the others are
    glued with a slash. *)
Fixpoint joinArgs (args : list string) (joined : option string) : option string :=
  match args with
  | [] => joined
  | arg :: rest =>
      if String.eqb arg "" then joinArgs rest joined
      else joinArgs rest
             (Some match joined with
                   | None => arg
                   | Some j => j +:+ "/" +:+ arg
                   end)
  end.

(** [path.join(...args)]. *)
Definition join (args : list string) : string :=
  match joinArgs args None with
  | None => "."
  | Some joined => normalize joined
  end.

Fixpoint allSlashes (s : string) : bool :=
  match s with
  | EmptyString => true
  | String c s' => Ascii.eqb c "/" && allSlashes s'
  end.

(** In the text after the first character: the offset of the last slash that
    still has a character other than a slash after it. *)
Fixpoint lastDirSlash (s : string) : option nat :=
  match s with
  | EmptyString => None
  | String c s' =>
      match lastDirSlash s' with
      | Some k => Some (S k)
      | None => if Ascii.eqb c "/" && negb (allSlashes s') then Some 0 else None
      end
  end.

(** [path.dirname]. *)
Definition dirname (path : string) : string :=
  match path with
  | EmptyString => "."
  | String c rest =>
      let hasRoot := Ascii.eqb c "/" in
      match lastDirSlash rest with
      | None => if hasRoot then "/" else "."
      | Some k => if hasRoot && Nat.eqb k 0 then "//" else JsString.take (S k) path
      end
  end.

End Path.

(** ** JavaScript values, for the parts of the configuration that the script
    reads defensively *)

Inductive JsNumber : Type :=
| NaN
| Infinity (sign : bool)
| Finite (q : Q).

#[local] Unset Elimination Schemes.
Inductive JsValue : Type :=
| JUndefined
| JNull
| JBool (b : bool)
| JNumber (n : JsNumber)
| JString (s : string)
| JArray (items : list JsValue)
| JObject (fields : list (string * JsValue)).
#[local] Set Elimination Schemes.

Definition isZero (n : JsNumber) : bool :=
  match n with
  | Finite q => Z.eqb (Qnum q) 0
  | _ => false
  end.

(** [ToBoolean]: the falsy values are [undefined], [null], [false], zero,
    [NaN] and the empty string. *)
Definition truthy (v : JsValue) : bool :=
  match v with
  | JUndefined | JNull => false
  | JBool b => b
  | JNumber NaN => false
  | JNumber n => negb (isZero n)
  | JString s => negb (String.eqb s "")
  | JArray _ | JObject _ => true
  end.

Definition nullish (v : JsValue) : bool :=
  match v with
  | JUndefined | JNull => true
  | _ => false
  end.

Fixpoint lookupField (k : string) (fields : list (string * JsValue)) : JsValue :=
  match fields with
  | [] => JUndefined
  | (k', v) :: rest => if String.eqb k k' then v else lookupField k rest
  end.

(** [v?.k] for a key [k] that is no built-in property of strings, numbers,
    booleans or arrays (the script asks for [headless] and [concurrency]). *)
Definition optionalGet (v : JsValue) (k : string) : JsValue :=
  match v with
  | JObject fields => lookupField k fields
  | _ => JUndefined
  end.

(** [a ?? b]. *)
Definition nullishCoalesce (a b : JsValue) : JsValue :=
  if nullish a then b else a.

(** [a || b]. *)
Definition logicalOr (a b : JsValue) : JsValue :=
  if truthy a then a else b.

(** ** The configuration (the script's [Config] typedef) *)

Record Config : Type := {
  production_url : string;
  preview_port : Z;
  default_locale : string;
  default_theme : string;
  locales : list string;
  themes : list string;
  routes : list string;
  exclude_from_sitemap : option (list string);
  playwright : JsValue;
  page_load_timeout : Q;
  wait_for_ready_timeout : Q;
  network_idle_timeout : Q;
  additional_wait : Q
}.

(** The double quote, for the markup the script writes. *)
Definition dq : string := String (ascii_of_nat 34) EmptyString.

Definition newline : string := String (ascii_of_nat 10) EmptyString.

(** ** Sitemap priority and change frequency *)

(** [route.split('/').filter(Boolean).length]: the number of non-empty
    segments. *)
Definition depth (route : string) : nat :=
  length (List.filter (fun seg => negb (String.eqb seg "")) (JsString.split "/" route)).

Definition calculatePriority (route : string) : string :=
  if String.eqb route "/" then "1.0"
  else
    let depth := depth route in
    if Nat.eqb depth 1 then "0.8"
    else if Nat.eqb depth 2 then "0.6"
    else "0.4".

Definition calculateChangeFreq (route : string) : string :=
  if String.eqb route "/" then "weekly"
  else
    let depth := depth route in
    if Nat.leb depth 2 then "monthly" else "yearly".

(** ** The script, relative to the directory it is installed in *)

Section Script.

Variable __dirname : string.

Definition PROJECT_ROOT : string := Path.join [__dirname; ".."; ".."; ".."].
Definition DIST_DIR : string := Path.join [PROJECT_ROOT; "dist"].
Definition CONFIG_PATH : string := Path.join [__dirname; "config.yaml"].
Definition ROUTES_PATH : string := Path.join [PROJECT_ROOT; "routes.yaml"].

(** *** The output path of one render task ([prerenderRoute], first lines) *)

Definition outputFile (route : string) : string :=
  if String.eqb route "/" then "index"
  else JsString.stripLeadingSlash route +:+ "/index".

Definition themeSuffix (config : Config) (theme : string) : string :=
  if String.eqb theme (default_theme config) then "" else "." +:+ theme.

Definition localeSuffix (config : Config) (locale : string) : string :=
  if String.eqb locale (default_locale config) then "" else "." +:+ locale.

(** The name handed to [join], relative to the output root. *)
Definition outputName (config : Config) (route locale theme : string) : string :=
  outputFile route +:+ themeSuffix config theme +:+ localeSuffix config locale
  +:+ ".html".

Definition outputPath (config : Config) (route locale theme : string) : string :=
  Path.join [DIST_DIR; outputName config route locale theme].

Definition renderUrl (config : Config) (route locale theme : string) : string :=
  production_url config +:+ route +:+ "?__prerendering=true&locale=" +:+ locale
  +:+ "&theme=" +:+ theme.

End Script.

Definition demoConfig : Config := {|
  production_url := "https://example.com";
  preview_port := 4173%Z;
  default_locale := "tr";
  default_theme := "light";
  locales := ["tr"; "en"];
  themes := ["light"; "dark"];
  routes := ["/"; "/about"];
  exclude_from_sitemap := None;
  playwright := JObject [("headless", JBool true); ("concurrency", JNumber (Finite (3 # 1)))];
  page_load_timeout := 30 # 1;
  wait_for_ready_timeout := 10 # 1;
  network_idle_timeout := 10 # 1;
  additional_wait := 1 # 2
|}.

Definition demoDir : string := "/repo/scripts/utils/prerender-utility".

(** ** Exceptions, the world the script acts on, and the script's monad *)

Record JsError : Type := {
  err_name : string;
  err_code : option string;
  err_path : option string;
  err_message : string
}.

Definition mkError (msg : string) : JsError :=
  {| err_name := "Error"; err_code := None; err_path := None; err_message := msg |}.

Definition typeError (msg : string) : JsError :=
  {| err_name := "TypeError"; err_code := None; err_path := None; err_message := msg |}.

(** What [readFileSync] throws for a file that is not there. *)
Definition enoent (file : string) : JsError :=
  {| err_name := "Error"; err_code := Some "ENOENT"; err_path := Some file;
     err_message := "ENOENT: no such file or directory, open '" +:+ file +:+ "'" |}.

(** The other errors of the [fs] calls, in Node's words. *)
Definition fsError (code description syscall file : string) : JsError :=
  {| err_name := "Error"; err_code := Some code; err_path := Some file;
     err_message := code +:+ ": " +:+ description +:+ ", " +:+ syscall +:+ " '" +:+ file
                    +:+ "'" |}.

Definition enotdir (syscall file : string) : JsError :=
  fsError "ENOTDIR" "not a directory" syscall file.

Definition eisdir (file : string) : JsError :=
  fsError "EISDIR" "illegal operation on a directory" "open" file.

Definition eexist (file : string) : JsError :=
  fsError "EEXIST" "file already exists" "mkdir" file.

Inductive Completion (A : Type) : Type :=
| Normal (a : A)
| Throw (e : JsError).
Arguments Normal {A} a.
Arguments Throw {A} e.

Inductive Stream : Type := Stdout | Stderr.

(** The child process of the preview server, as the script sees it. *)
Record ServerProcess : Type := {
  pid : nat;
  killed : bool
}.

(** The file system (files with their contents, the directories that
    exist, and what the operating system refuses at a path for a reason
    that the tree does not show, such as a missing permission or a full
    device: the error of the [open] or [mkdir] call), the console, the
    signals sent to the preview server, and the one variable of [main] that
    is assigned after its declaration. *)
Record State : Type := {
  files : gmap string string;
  dirs : gset string;
  refused : string -> option JsError;
  console : list (Stream * string);
  signals : list string;
  serverProcess : option ServerProcess
}.

Definition M (A : Type) : Type := State -> Completion A * State.

Definition ret {A : Type} (a : A) : M A := fun st => (Normal a, st).

Definition bind {A B : Type} (m : M A) (k : A -> M B) : M B :=
  fun st =>
    match m st with
    | (Normal a, st') => k a st'
    | (Throw e, st') => (Throw e, st')
    end.

Definition throw {A : Type} (e : JsError) : M A := fun st => (Throw e, st).

(** [try { m } catch (error) { handler error }]. *)
Definition tryCatch {A : Type} (m : M A) (handler : JsError -> M A) : M A :=
  fun st =>
    match m st with
    | (Normal a, st') => (Normal a, st')
    | (Throw e, st') => handler e st'
    end.

(** [try { m } finally { cleanup }]: the cleanup always runs, and an
    exception of the cleanup replaces the completion of [m]. *)
Definition tryFinally {A : Type} (m : M A) (cleanup : M unit) : M A :=
  fun st =>
    match m st with
    | (c, st') =>
        match cleanup st' with
        | (Normal _, st'') => (c, st'')
        | (Throw e, st'') => (Throw e, st'')
        end
    end.

(** An awaited call that leaves the script: it resolves, or rejects with the
    given error. *)
Definition await (outcome : option JsError) : M unit :=
  match outcome with
  | None => ret tt
  | Some e => throw e
  end.

Definition awaitValue {A : Type} (outcome : Completion A) : M A :=
  match outcome with
  | Normal a => ret a
  | Throw e => throw e
  end.

#[global] Instance M_ret : MRet M := @ret.
#[global] Instance M_bind : MBind M := fun A B k m => bind m k.

Definition print (stream : Stream) (line : string) : M unit :=
  fun st =>
    (Normal tt,
     {| files := files st; dirs := dirs st; refused := refused st;
        console := console st ++ [(stream, line)];
        signals := signals st; serverProcess := serverProcess st |}).

(** The script's [log] object. *)
Definition log_info (msg : string) : M unit := print Stdout ("[INFO] " +:+ msg).
Definition log_error (msg : string) : M unit := print Stderr ("[ERROR] " +:+ msg).
Definition log_warning (msg : string) : M unit := print Stdout ("[WARNING] " +:+ msg).

(** *** The [fs] calls of the script *)

Definition existsSync (p : string) : M bool :=
  fun st =>
    (Normal (bool_decide (p ∈ dirs st) || bool_decide (is_Some (files st !! p))), st).

Definition isFile (st : State) (p : string) : bool :=
  bool_decide (is_Some (files st !! p)).

(** The directories above [p], nearest first, up to the root. *)
Fixpoint ancestorsFrom (fuel : nat) (p : string) : list string :=
  match fuel with
  | O => []
  | S fuel' =>
      let parent := Path.dirname p in
      if String.eqb parent p then [] else parent :: ancestorsFrom fuel' parent
  end.

Definition ancestors (p : string) : list string := ancestorsFrom (String.length p) p.

(** The directories of [chain] (nearest first) below the nearest one that
    exists. *)
Fixpoint missingAmong (st : State) (chain : list string) : list string :=
  match chain with
  | [] => []
  | d :: above => if bool_decide (d ∈ dirs st) then [] else d :: missingAmong st above
  end.

(** The directories of [todo] are made one after the other, until the
    operating system refuses one. *)
Fixpoint makeDirs (refuse : string -> option JsError) (todo : list string)
    (made : gset string) : option JsError * gset string :=
  match todo with
  | [] => (None, made)
  | d :: rest =>
      match refuse d with
      | Some e => (Some e, made)
      | None => makeDirs refuse rest ({[ d ]} ∪ made)
      end
  end.

(** [mkdirSync(p, { recursive: true })]: the missing directories above [p]
    are made from the top down, then [p] itself; nothing is done for a
    directory that exists.  A file in the way is an error ([EEXIST] when it
    is [p] itself, [ENOTDIR] when it is above [p]) and nothing is made; what
    was made before the operating system refuses a directory stays. *)
Definition mkdirSync (p : string) : M unit :=
  fun st =>
    let missing := missingAmong st (p :: ancestors p) in
    if existsb (isFile st) missing then
      (Throw (if isFile st p then eexist p else enotdir "mkdir" p), st)
    else
      let made := makeDirs (refused st) (rev missing) (dirs st) in
      (match fst made with
       | Some e => Throw e
       | None => Normal tt
       end,
       {| files := files st; dirs := snd made; refused := refused st;
          console := console st; signals := signals st;
          serverProcess := serverProcess st |}).

Definition readFileSync (p : string) : M string :=
  fun st =>
    match files st !! p with
    | Some text => (Normal text, st)
    | None => (Throw (enoent p), st)
    end.

(** [writeFileSync(p, data, 'utf-8')]: the file is created or replaced.
    The call throws, and writes nothing, when [p] is a directory
    ([EISDIR]), when a file is in the place of a directory above [p]
    ([ENOTDIR]), when the directory of [p] does not exist ([ENOENT]), and
    when the operating system refuses the file. *)
Definition writeFileSync (p data : string) : M unit :=
  fun st =>
    if bool_decide (p ∈ dirs st) then (Throw (eisdir p), st)
    else if existsb (isFile st) (ancestors p) then (Throw (enotdir "open" p), st)
    else if negb (bool_decide (Path.dirname p ∈ dirs st)) then (Throw (enoent p), st)
    else
      match refused st p with
      | Some e => (Throw e, st)
      | None =>
          (Normal tt,
           {| files := <[ p := data ]> (files st); dirs := dirs st;
              refused := refused st; console := console st;
              signals := signals st; serverProcess := serverProcess st |})
      end.

Definition setServerProcess (sp : option ServerProcess) : M unit :=
  fun st =>
    (Normal tt,
     {| files := files st; dirs := dirs st; refused := refused st;
        console := console st; signals := signals st; serverProcess := sp |}).

Definition getServerProcess : M (option ServerProcess) :=
  fun st => (Normal (serverProcess st), st).

Definition sendSignal (sig : string) : M unit :=
  fun st =>
    (Normal tt,
     {| files := files st; dirs := dirs st; refused := refused st;
        console := console st; signals := signals st ++ [sig];
        serverProcess :=
          match serverProcess st with
          | Some sp => Some {| pid := pid sp; killed := true |}
          | None => None
          end |}).

(** ** What the script is given from outside *)

(** One network response seen by the observer that [prerenderRoute]
    attaches to its page. *)
Record Response : Type := {
  url : string;
  ok : bool
}.

(** One browser page over its lifetime: the outcome of opening it, the
    responses its observer has seen by the time the document is captured,
    the outcome of navigating to a URL and of each later awaited call (each
    under the timeout the script passes), and the outcome of closing it. *)
Record PageRun : Type := {
  newPage : option JsError;
  responses : list Response;
  goto : string -> option JsError;
  waitForFunction : option JsError;
  waitForLoadState : option JsError;
  waitForTimeout : option JsError;
  content : Completion string;
  close : option JsError
}.

(** What [yaml.load] returns for the route list: no document at all, or a
    mapping whose [routes] entry is absent or falsy ([None]) or a list. *)
Inductive RoutesDoc : Type :=
| RoutesNull
| RoutesMap (routes_entry : option (list string)).

(** What [serverProcess.kill(signal)] does: the signal is delivered, the
    process object is marked as killed and the call returns [true]; or the
    signal is not delivered (the process has already exited, or the system
    does not let the script signal it), nothing is marked and the call
    returns [false]; or the call throws. *)
Inductive KillOutcome : Type :=
| Delivered
| NotDelivered
| KillThrows (error : JsError).

Record Env : Type := {
  (** [yaml.load] of the settings text, read at the type [Config] *)
  yamlSettings : string -> Completion Config;
  (** [yaml.load] of the route list text *)
  yamlRoutes : string -> Completion RoutesDoc;
  (** [new Date().toISOString()] *)
  isoNow : string;
  (** the preview server: its process id once it is presumed ready *)
  serverStart : Completion nat;
  (** [serverProcess.kill('SIGTERM')] on the running server *)
  killOutcome : KillOutcome;
  (** [chromium.launch], given the headless option and the arguments *)
  launch : JsValue -> list string -> option JsError;
  newContext : option JsError;
  browserClose : option JsError;
  (** the page of the task at each position of the task list *)
  pages : nat -> PageRun;
  (** [prettier.format] with the script's fixed options *)
  prettierFormat : string -> Completion string
}.

(** ** The page renderer *)

(** A JavaScript [Set] of strings: insertion order, no repetition. *)
Definition setAdd (x : string) (set : list string) : list string :=
  if existsb (String.eqb x) set then set else set ++ [x].

Record Resources : Type := {
  css : list string;
  js : list string
}.

(** The response observer of [prerenderRoute]. *)
Definition onResponse (config : Config) (resources : Resources) (response : Response)
  : Resources :=
  let url := url response in
  if negb (ok response) || negb (JsString.includes url "/assets/") then resources
  else
    let relativePath := JsString.replace url (production_url config) "" in
    if JsString.endsWith url ".css" then
      {| css := setAdd relativePath (css resources); js := js resources |}
    else if JsString.endsWith url ".js"
            && negb (JsString.includes relativePath "/assets/index-") then
      {| css := css resources; js := setAdd relativePath (js resources) |}
    else resources.

Definition observe (config : Config) (seen : list Response) : Resources :=
  fold_left (onResponse config) seen {| css := []; js := [] |}.

Definition cssHint (href : string) : string :=
  "  <link rel=" +:+ dq +:+ "preload" +:+ dq +:+ " href=" +:+ dq +:+ href +:+ dq
  +:+ " as=" +:+ dq +:+ "style" +:+ dq +:+ " crossorigin>".

Definition jsHint (href : string) : string :=
  "  <link rel=" +:+ dq +:+ "modulepreload" +:+ dq +:+ " href=" +:+ dq +:+ href +:+ dq
  +:+ " crossorigin>".

Definition preloadHints (resources : Resources) : list string :=
  (if Nat.ltb 0 (length (css resources)) then map cssHint (css resources) else [])
  ++ (if Nat.ltb 0 (length (js resources)) then map jsHint (js resources) else []).

(** The replacement text handed to [html.replace('</head>', ...)]. *)
Definition headReplacement (hints : list string) : string :=
  newline +:+ JsString.join newline hints +:+ newline +:+ "  </head>".

Definition injectHints (html : string) (hints : list string) : string :=
  if Nat.ltb 0 (length hints) then JsString.replace html "</head>" (headReplacement hints)
  else html.

Section Renderer.

Variable __dirname : string.
Variable env : Env.

Definition prerenderRoute (page : PageRun) (route locale theme : string)
    (config : Config) : M bool :=
  let renderUrl := renderUrl config route locale theme in
  let outputPath := outputPath __dirname config route locale theme in
  log_info ("Rendering " +:+ route +:+ " [" +:+ locale +:+ "] [" +:+ theme +:+ "]");;
  let resources := observe config (responses page) in
  tryCatch
    (await (goto page renderUrl);;
     await (waitForFunction page);;
     await (waitForLoadState page);;
     await (waitForTimeout page);;
     html ← awaitValue (content page);
     if Nat.ltb (String.length html) 1000 then
       log_error ("Empty HTML for " +:+ route);;
       mret false
     else
       let preloadHints := preloadHints resources in
       let html' := injectHints html preloadHints in
       (if Nat.ltb 0 (length preloadHints) then
          log_info ("  → " +:+ pretty (length (css resources)) +:+ " CSS + "
                    +:+ pretty (length (js resources)) +:+ " JS preload(s) injected ("
                    +:+ pretty (length preloadHints) +:+ " total)")
        else mret tt);;
       beautifiedHtml ← awaitValue (prettierFormat env html');
       let outputDir := Path.dirname outputPath in
       dirExists ← existsSync outputDir;
       (if negb dirExists then mkdirSync outputDir else mret tt);;
       writeFileSync outputPath beautifiedHtml;;
       log_info ("Success: " +:+ route);;
       mret true)
    (fun error =>
       log_error ("Failed " +:+ route +:+ ": " +:+ JsString.take 150 (err_message error));;
       mret false).

End Renderer.

(** ** The render task scheduler *)

Record Task : Type := {
  task_route : string;
  task_locale : string;
  task_theme : string
}.

(** The three nested loops of [prerenderAll]: route-major, then locale, then
    theme. *)
Definition tasksOf (config : Config) : list Task :=
  flat_map (fun route =>
    flat_map (fun locale =>
      map (fun theme =>
             {| task_route := route; task_locale := locale; task_theme := theme |})
          (themes config))
      (locales config))
    (routes config).

(** [config.playwright?.headless ?? false]. *)
Definition headlessOption (config : Config) : JsValue :=
  nullishCoalesce (optionalGet (playwright config) "headless") (JBool false).

(** [config.playwright?.concurrency || 5]. *)
Definition concurrencyOption (config : Config) : JsValue :=
  logicalOr (optionalGet (playwright config) "concurrency") (JNumber (Finite (5 # 1))).

Definition prodDomain (config : Config) : string :=
  JsString.replace (JsString.replace (production_url config) "https://" "") "http://" "".

Definition launchArgs (config : Config) : list string :=
  ["--host-resolver-rules=MAP " +:+ prodDomain config +:+ ":443 localhost:"
   +:+ pretty (preview_port config);
   "--ignore-certificate-errors"].

(** The ceiling of the admission gate. *)
Inductive Ceiling : Type :=
| Bounded (n : nat)
| Unbounded.

Definition showCeiling (c : Ceiling) : string :=
  match c with
  | Bounded n => pretty n
  | Unbounded => "Infinity"
  end.

(** Modelled from the spec: [pLimit(concurrency)] of the [p-limit] package,
    whose code is not among the repository's sources.  The specification
    gives the ceiling as a whole number from 1 up; the package takes such a
    number or positive infinity and throws a [TypeError] for anything
    else. *)
Definition pLimit (concurrency : JsValue) : Completion Ceiling :=
  match concurrency with
  | JNumber (Infinity true) => Normal Unbounded
  | JNumber (Finite q) =>
      if Z.eqb (Qnum q mod Zpos (Qden q)) 0 && Z.ltb 0 (Qnum q)
      then Normal (Bounded (Z.to_nat (Qnum q / Zpos (Qden q))))
      else Throw (typeError "Expected `concurrency` to be a number from 1 and up")
  | _ => Throw (typeError "Expected `concurrency` to be a number from 1 and up")
  end.

(** [Promise.all] over the queued tasks.  Every task has a page of its
    own; the model runs the tasks in queue order and stops at the first
    rejection, after which [main] ends the process. *)
Fixpoint promiseAll {A : Type} (ms : list (M A)) : M (list A) :=
  match ms with
  | [] => mret []
  | m :: rest =>
      a ← m;
      others ← promiseAll rest;
      mret (a :: others)
  end.

Section Pipeline.

Variable __dirname : string.
Variable env : Env.

(** The body handed to [limit] for the task at position [i]. *)
Definition renderTask (config : Config) (i : nat) (task : Task) : M bool :=
  let page := pages env i in
  await (newPage page);;
  tryFinally
    (prerenderRoute __dirname env page
       (task_route task) (task_locale task) (task_theme task) config)
    (await (close page)).

Definition prerenderAll (config : Config) : M nat :=
  log_info ("Pre-rendering " +:+ pretty (length (routes config)) +:+ " routes");;
  log_info ("DNS Override: " +:+ prodDomain config +:+ " → localhost:"
            +:+ pretty (preview_port config));;
  await (launch env (headlessOption config) (launchArgs config));;
  await (newContext env);;
  limit ← awaitValue (pLimit (concurrencyOption config));
  log_info ("Rendering with concurrency: " +:+ showCeiling limit +:+ " parallel pages");;
  let tasks := tasksOf config in
  results ← promiseAll (imap (renderTask config) tasks);
  await (browserClose env);;
  mret (length (List.filter (fun success : bool => success) results)).

(** ** Site artifacts *)

Definition urlEntry (today productionUrl route : string) : string :=
  let loc :=
    if String.eqb route "/" then productionUrl +:+ "/" else productionUrl +:+ route in
  JsString.join newline
    ["  <url>";
     "    <loc>" +:+ loc +:+ "</loc>";
     "    <lastmod>" +:+ today +:+ "</lastmod>";
     "    <changefreq>" +:+ calculateChangeFreq route +:+ "</changefreq>";
     "    <priority>" +:+ calculatePriority route +:+ "</priority>";
     "  </url>"].

Definition today : string := hd "" (JsString.split "T" (isoNow env)).

Definition excludedOf (config : Config) : list string :=
  match exclude_from_sitemap config with
  | Some excluded => excluded
  | None => []
  end.

(** [excluded.includes(route)]. *)
Definition arrayIncludes (l : list string) (x : string) : bool :=
  existsb (String.eqb x) l.

(** The [<url>] entries of the sitemap. *)
Definition sitemapUrls (config : Config) : list string :=
  let productionUrl := JsString.stripTrailingSlash (production_url config) in
  let excluded := excludedOf config in
  map (urlEntry today productionUrl)
      (List.filter (fun route => negb (arrayIncludes excluded route)) (routes config)).

Definition sitemapText (config : Config) : string :=
  JsString.join newline
    (["<?xml version=" +:+ dq +:+ "1.0" +:+ dq +:+ " encoding=" +:+ dq +:+ "UTF-8" +:+ dq
      +:+ "?>";
      "<urlset xmlns=" +:+ dq +:+ "http://www.sitemaps.org/schemas/sitemap/0.9" +:+ dq
      +:+ ">"]
     ++ sitemapUrls config ++ ["</urlset>"; ""]).

Definition generateSitemap (config : Config) : M unit :=
  writeFileSync (Path.join [DIST_DIR __dirname; "sitemap.xml"]) (sitemapText config);;
  log_info ("Sitemap generated (" +:+ pretty (length (routes config)) +:+ " URLs)").

Definition generateRobotsTxt (config : Config) : M unit :=
  let productionUrl := JsString.stripTrailingSlash (production_url config) in
  let robotsTxt :=
    JsString.join newline
      ["User-agent: *"; "Allow: /"; ""; "Sitemap: " +:+ productionUrl +:+ "/sitemap.xml"; ""] in
  writeFileSync (Path.join [DIST_DIR __dirname; "robots.txt"]) robotsTxt;;
  log_info "robots.txt generated".

(** ** Configuration assembly *)

(** [{ ...config, routes: listed }]. *)
Definition withRoutes (config : Config) (listed : list string) : Config :=
  {| production_url := production_url config;
     preview_port := preview_port config;
     default_locale := default_locale config;
     default_theme := default_theme config;
     locales := locales config;
     themes := themes config;
     routes := listed;
     exclude_from_sitemap := exclude_from_sitemap config;
     playwright := playwright config;
     page_load_timeout := page_load_timeout config;
     wait_for_ready_timeout := wait_for_ready_timeout config;
     network_idle_timeout := network_idle_timeout config;
     additional_wait := additional_wait config |}.

(** The settings as they were parsed, with the route list of the route
    file, or the empty list when that file has no (or a falsy) [routes]
    entry ([routesData.routes || []]).  Reading [routes] off a route file
    that holds no document is a [TypeError]. *)
Definition loadConfig : M Config :=
  configContents ← readFileSync (CONFIG_PATH __dirname);
  config ← awaitValue (yamlSettings env configContents);
  routesContents ← readFileSync (ROUTES_PATH __dirname);
  routesData ← awaitValue (yamlRoutes env routesContents);
  match routesData with
  | RoutesNull =>
      throw (typeError "Cannot read properties of undefined (reading 'routes')")
  | RoutesMap entry =>
      mret (withRoutes config match entry with Some listed => listed | None => [] end)
  end.

(** ** The preview server *)

Definition startPreviewServer (config : Config) : M ServerProcess :=
  log_info ("Starting preview server on port " +:+ pretty (preview_port config));;
  started ← awaitValue (serverStart env);
  log_info ("Preview server started (PID: " +:+ pretty started +:+ ")");;
  mret {| pid := started; killed := false |}.

(** The terminating signal is sent unless the process is absent or already
    marked as killed; the value [kill] returns is not looked at.  (The
    forced kill that the script schedules three seconds later lies after
    the end of the process, which [exitCode] ends as soon as [main] has
    resolved, and is not part of the model.) *)
Definition stopPreviewServer (server : option ServerProcess) : M unit :=
  match server with
  | Some sp =>
      if negb (killed sp) then
        log_info "Stopping preview server";;
        tryCatch
          (match killOutcome env with
           | Delivered => sendSignal "SIGTERM"
           | NotDelivered => mret tt
           | KillThrows error => throw error
           end)
          (fun error => log_warning ("Server stop error: " +:+ err_message error))
      else mret tt
  | None => mret tt
  end.

(** ** The edge-routing script *)

Definition hexDigit (n : nat) : ascii :=
  ascii_of_nat (if Nat.ltb n 10 then 48 + n else 87 + n).

(** [JSON.stringify] of one character inside a string. *)
Definition jsonChar (c : ascii) : string :=
  let n := nat_of_ascii c in
  if Nat.eqb n 34 then "\" +:+ dq
  else if Nat.eqb n 92 then "\\"
  else if Nat.eqb n 8 then "\b"
  else if Nat.eqb n 12 then "\f"
  else if Nat.eqb n 10 then "\n"
  else if Nat.eqb n 13 then "\r"
  else if Nat.eqb n 9 then "\t"
  else if Nat.ltb n 32 then
    "\u00" +:+ String (hexDigit (n / 16)) (String (hexDigit (n mod 16)) EmptyString)
  else String c EmptyString.

Fixpoint jsonChars (s : string) : string :=
  match s with
  | EmptyString => EmptyString
  | String c s' => jsonChar c +:+ jsonChars s'
  end.

(** [JSON.stringify] of an array of strings. *)
Definition jsonStringArray (l : list string) : string :=
  "[" +:+ JsString.join "," (map (fun s => dq +:+ jsonChars s +:+ dq) l) +:+ "]".

Definition workerCode (config : Config) (workerTemplate : string) : string :=
  JsString.replace
    (JsString.replace
       (JsString.replace
          (JsString.replace workerTemplate "__LOCALES__" (jsonStringArray (locales config)))
          "__DEFAULT_LOCALE__" ("'" +:+ default_locale config +:+ "'"))
       "__THEMES__" (jsonStringArray (themes config)))
    "__DEFAULT_THEME__" ("'" +:+ default_theme config +:+ "'").

Definition buildWorker (config : Config) : M unit :=
  workerTemplate ← readFileSync (Path.join [__dirname; "_worker.js"]);
  writeFileSync (Path.join [DIST_DIR __dirname; "_worker.js"])
    (workerCode config workerTemplate);;
  log_info ("Cloudflare Worker built (locales: " +:+ JsString.join ", " (locales config)
            +:+ ", themes: " +:+ JsString.join ", " (themes config) +:+ ")").

(** ** The orchestrator *)

Definition total (config : Config) : nat :=
  length (routes config) * length (locales config) * length (themes config).

Definition main : M bool :=
  log_info "SSG Pre-Rendering - Starting";;
  setServerProcess None;;
  tryFinally
    (tryCatch
       (config ← loadConfig;
        log_info ("Config: " +:+ pretty (length (routes config)) +:+ " routes");;
        distExists ← existsSync (DIST_DIR __dirname);
        if negb distExists then
          log_error "dist/ not found. Run npm run build first";;
          mret false
        else
          tryCatch (buildWorker config)
            (fun error =>
               log_warning ("Failed to build _worker.js: " +:+ err_message error));;
          tryCatch (generateSitemap config;; generateRobotsTxt config)
            (fun error =>
               log_warning ("Failed to generate sitemap/robots.txt: "
                            +:+ err_message error));;
          server ← startPreviewServer config;
          setServerProcess (Some server);;
          successCount ← prerenderAll config;
          log_info ("Complete: " +:+ pretty successCount +:+ "/" +:+ pretty (total config)
                    +:+ " successful (" +:+ pretty (length (routes config))
                    +:+ " routes × " +:+ pretty (length (locales config))
                    +:+ " locales × " +:+ pretty (length (themes config))
                    +:+ " themes)");;
          mret (Nat.eqb successCount (total config)))
       (fun error =>
          (if bool_decide (err_code error = Some "ENOENT") then
             log_error ("File not found: "
                        +:+ match err_path error with
                            | Some file => file
                            | None => "undefined"
                            end)
           else log_error ("Fatal error: " +:+ err_message error));;
          mret false))
    (server ← getServerProcess; stopPreviewServer server).

(** [main().then(success => process.exit(success ? 0 : 1)).catch(...)]:
    the exit code of the process, and the world it leaves behind. *)
Definition exitCode (st : State) : Z * State :=
  match main st with
  | (Normal success, st') => ((if success then 0 else 1)%Z, st')
  | (Throw error, st') =>
      (1%Z,
       snd (log_error ("Unhandled error: " +:+ err_name error +:+ ": "
                       +:+ err_message error) st'))
  end.

End Pipeline.

(** ** The admission gate *)

(** Modelled from the spec: the counting admission gate of the scheduler.
    The script obtains it from the [p-limit] package ([pLimit(concurrency)]
    and [limit(fn)]), whose code is not among the repository's sources.  The
    spec's words: a new task may start only while fewer than the ceiling are
    in flight; completion of any task lets the next queued task in; tasks do
    not block on each other otherwise.  Tasks are named by their position in
    the task list; when a task completes is not decided by the gate. *)
Record Gate : Type := {
  queued : list nat;
  inFlight : list nat;
  settled : list nat
}.

Inductive GateEvent : Type :=
| Started (task : nat)
| Completed (task : nat).

(** Fewer than the ceiling. *)
Definition hasRoom (ceiling : Ceiling) (k : nat) : Prop :=
  match ceiling with
  | Bounded n => k < n
  | Unbounded => True
  end.

(** At most the ceiling. *)
Definition withinCeiling (ceiling : Ceiling) (k : nat) : Prop :=
  match ceiling with
  | Bounded n => k <= n
  | Unbounded => True
  end.

(** Modelled from the spec: the two steps of the gate.  A queued task is
    started while fewer tasks than the ceiling are in flight; any task in
    flight may complete at any time. *)
Inductive gateStep (ceiling : Ceiling) : Gate -> GateEvent -> Gate -> Prop :=
| gate_start (t : nat) (q a d : list nat) :
    hasRoom ceiling (length a) ->
    gateStep ceiling
      {| queued := t :: q; inFlight := a; settled := d |}
      (Started t)
      {| queued := q; inFlight := a ++ [t]; settled := d |}
| gate_complete (t : nat) (q a1 a2 d : list nat) :
    gateStep ceiling
      {| queued := q; inFlight := a1 ++ t :: a2; settled := d |}
      (Completed t)
      {| queued := q; inFlight := a1 ++ a2; settled := d ++ [t] |}.

(** All tasks are handed to the gate at once ([tasks.map] over [limit]). *)
Definition gateInit (n : nat) : Gate :=
  {| queued := seq 0 n; inFlight := []; settled := [] |}.

Inductive gateReach (ceiling : Ceiling) (g0 : Gate) : Gate -> Prop :=
| reach_init : gateReach ceiling g0 g0
| reach_step (g g' : Gate) (ev : GateEvent) :
    gateReach ceiling g0 g -> gateStep ceiling g ev g' -> gateReach ceiling g0 g'.

(** ** Sample inputs *)

Definition demoPage (html : string) (seen : list Response) : PageRun :=
  {| newPage := None; responses := seen; goto := fun _ => None; waitForFunction := None;
     waitForLoadState := None; waitForTimeout := None; content := Normal html;
     close := None |}.

(** A text of [n] copies of [c]. *)
Fixpoint repeatChar (c : ascii) (n : nat) : string :=
  match n with
  | O => EmptyString
  | S n' => String c (repeatChar c n')
  end.

Definition demoHtml : string :=
  "<!DOCTYPE html><html><head><title>t</title></head><body>"
  +:+ repeatChar "x" 1000 +:+ "</body></html>".

Definition demoResponses : list Response :=
  [ {| url := "https://example.com/assets/index-abc.js"; ok := true |};
    {| url := "https://example.com/assets/main-1.css"; ok := true |};
    {| url := "https://example.com/assets/chunk-2.js"; ok := true |};
    {| url := "https://example.com/assets/chunk-2.js"; ok := true |};
    {| url := "https://example.com/assets/gone.js"; ok := false |};
    {| url := "https://example.com/logo.png"; ok := true |} ].

Definition demoEnv : Env :=
  {| yamlSettings := fun _ => Normal demoConfig;
     yamlRoutes := fun _ => Normal (RoutesMap (Some ["/"; "/about"]));
     isoNow := "2025-01-02T03:04:05.000Z";
     serverStart := Normal 4242;
     killOutcome := Delivered;
     launch := fun _ _ => None;
     newContext := None;
     browserClose := None;
     pages := fun _ => demoPage demoHtml demoResponses;
     prettierFormat := fun html => Normal html |}.

Definition demoState : State :=
  {| files := {[ CONFIG_PATH demoDir := "settings"; ROUTES_PATH demoDir := "routes" ]};
     dirs := {[ DIST_DIR demoDir ]};
     refused := fun _ => None;
     console := [];
     signals := [];
     serverProcess := None |}.

(** ** The output path as the specification words it *)

(** [r] with its leading slash stripped. *)
Inductive SpecStripped : string -> string -> Prop :=
| stripped_slash (rest : string) : SpecStripped (String "/" rest) rest
| stripped_none (r : string) : JsString.startsWith r "/" = false -> SpecStripped r r.

(** The base segment: [index] for the root route, otherwise the route
    without its leading slash, followed by [/index]. *)
Inductive SpecBase : string -> string -> Prop :=
| base_root : SpecBase "/" "index"
| base_route (r stripped : string) :
    r <> "/" -> SpecStripped r stripped -> SpecBase r (stripped +:+ "/index").

(** A suffix: empty for the default code, a dot and the code otherwise. *)
Inductive SpecSuffix (default code : string) : string -> Prop :=
| suffix_default : code = default -> SpecSuffix default code ""
| suffix_code : code <> default -> SpecSuffix default code ("." +:+ code).

Inductive SpecOutputPath (dir : string) (config : Config) (r l t : string)
  : string -> Prop :=
| spec_output_path (base ts ls : string) :
    SpecBase r base ->
    SpecSuffix (default_theme config) t ts ->
    SpecSuffix (default_locale config) l ls ->
    SpecOutputPath dir config r l t
      (Path.join [DIST_DIR dir; base +:+ ts +:+ ls +:+ ".html"]).

(** ** Well-formed routes and codes *)

(** A segment that [path.join] keeps as it is. *)
Definition plainSegment (seg : string) : bool :=
  negb (String.eqb seg "") && negb (String.eqb seg ".") && negb (String.eqb seg "..").

(** The root route, or a slash followed by segments that are separated by
    single slashes and are neither empty nor [.] nor [..]. *)
Definition canonicalRoute (r : string) : bool :=
  String.eqb r "/" ||
  match r with
  | String c rest => Ascii.eqb c "/" && forallb plainSegment (JsString.split "/" rest)
  | EmptyString => false
  end.

(** A locale or theme code without a dot and without a slash. *)
Definition plainCode (code : string) : bool :=
  JsString.lacks "." code && JsString.lacks "/" code.

(** No code is at once a theme other than the default theme and a locale
    other than the default locale. *)
Definition codesApart (config : Config) : bool :=
  forallb (fun t =>
    forallb (fun l =>
      String.eqb t (default_theme config) || String.eqb l (default_locale config)
      || negb (String.eqb t l))
      (locales config))
    (themes config).

Definition wellFormedConfig (config : Config) : bool :=
  forallb canonicalRoute (routes config)
  && forallb plainCode (locales config)
  && forallb plainCode (themes config)
  && codesApart config.

(** The task space of a configuration. *)
Definition inTaskSpace (config : Config) (r l t : string) : Prop :=
  In r (routes config) /\ In l (locales config) /\ In t (themes config).

(** ** The depth table of the specification *)

Definition tablePriority (d : nat) : string :=
  match d with
  | 0 => "1.0"
  | 1 => "0.8"
  | 2 => "0.6"
  | _ => "0.4"
  end.

Definition tableChangeFreq (d : nat) : string :=
  match d with
  | 0 => "weekly"
  | 1 | 2 => "monthly"
  | _ => "yearly"
  end.

(** ** Auxiliary definitions of the proofs *)

(** The part of the result of [path.join] that the first argument decides. *)
Definition rootOf (d : string) : string :=
  if JsString.startsWith d "/" then "/" else "".

Definition keptOf (d : string) : list string :=
  Path.normalizeSegments (negb (JsString.startsWith d "/")) (JsString.split "/" d) [].

(** The segments of a route below the output root. *)
Definition routeSegments (r : string) : list string :=
  if String.eqb r "/" then [] else JsString.split "/" (JsString.stripLeadingSlash r).

(** The file name of a task. *)
Definition fileName (config : Config) (l t : string) : string :=
  "index" +:+ themeSuffix config t +:+ localeSuffix config l +:+ ".html".

(** A configuration in which [en] is a theme as well as a locale. *)
Definition clashConfig : Config := {|
  production_url := "https://example.com";
  preview_port := 4173%Z;
  default_locale := "tr";
  default_theme := "light";
  locales := ["tr"; "en"];
  themes := ["light"; "dark"; "en"];
  routes := ["/"; "/about"];
  exclude_from_sitemap := None;
  playwright := JUndefined;
  page_load_timeout := 30 # 1;
  wait_for_ready_timeout := 10 # 1;
  network_idle_timeout := 10 # 1;
  additional_wait := 1 # 1
|}.






(** A response for a script chunk whose name holds two dollar signs. *)
Definition dollarResponses : list Response :=
  [ {| url := "https://example.com/assets/vendor-a$$b.js"; ok := true |} ].

(** *** Completions that do not depend on the state *)

(** [m] completes with [c] whatever the state it starts in. *)
Definition yields {A : Type} (m : M A) (c : Completion A) : Prop :=
  forall st : State, exists st' : State, m st = (c, st').

Definition resolved (outcome : option JsError) : bool :=
  match outcome with
  | None => true
  | Some _ => false
  end.

(** The completion of [Promise.all] over completions taken in order. *)
Fixpoint allOutcomes {A : Type} (outcomes : list (Completion A)) : Completion (list A) :=
  match outcomes with
  | [] => Normal []
  | Normal a :: rest =>
      match allOutcomes rest with
      | Normal others => Normal (a :: others)
      | Throw e => Throw e
      end
  | Throw e :: _ => Throw e
  end.

(** *** The run of the tasks *)

(** The completions of promises that are run one after the other, the
    first of them in [st], each next one in the state the one before it
    leaves. *)
Fixpoint runEach {A : Type} (ms : list (M A)) (st : State) : list (Completion A) :=
  match ms with
  | [] => []
  | m :: rest => fst (m st) :: runEach rest (snd (m st))
  end.

(** What [prerenderAll] does before it hands the tasks to [Promise.all]. *)
Definition beforeTasks (env : Env) (config : Config) : M unit :=
  log_info ("Pre-rendering " +:+ pretty (length (routes config)) +:+ " routes");;
  log_info ("DNS Override: " +:+ prodDomain config +:+ " → localhost:"
            +:+ pretty (preview_port config));;
  await (launch env (headlessOption config) (launchArgs config));;
  await (newContext env);;
  limit ← awaitValue (pLimit (concurrencyOption config));
  log_info ("Rendering with concurrency: " +:+ showCeiling limit +:+ " parallel pages").

(** The completions of the tasks of [prerenderAll] when it is called in
    [st], in the order of the task list. *)
Definition renderCompletions (dir : string) (env : Env) (config : Config) (st : State)
  : list (Completion bool) :=
  runEach (imap (renderTask dir env config) (tasksOf config))
          (snd (beforeTasks env config st)).

(** The completion of [prerenderAll] called in [st]. *)
Definition prerenderOutcome (dir : string) (env : Env) (config : Config) (st : State)
  : Completion nat :=
  match launch env (headlessOption config) (launchArgs config) with
  | Some e => Throw e
  | None =>
      match newContext env with
      | Some e => Throw e
      | None =>
          match pLimit (concurrencyOption config) with
          | Throw e => Throw e
          | Normal _ =>
              match allOutcomes (renderCompletions dir env config st) with
              | Throw e => Throw e
              | Normal results =>
                  match browserClose env with
                  | Some e => Throw e
                  | None =>
                      Normal (length (List.filter (fun success : bool => success) results))
                  end
              end
          end
      end
  end.

(** What [main] does before it calls [prerenderAll], on a run that gets
    that far: the configuration [config] is loaded and the output root
    exists. *)
Definition beforeRendering (dir : string) (env : Env) (config : Config) : M unit :=
  log_info "SSG Pre-Rendering - Starting";;
  setServerProcess None;;
  log_info ("Config: " +:+ pretty (length (routes config)) +:+ " routes");;
  tryCatch (buildWorker dir config)
    (fun error => log_warning ("Failed to build _worker.js: " +:+ err_message error));;
  tryCatch (generateSitemap dir env config;; generateRobotsTxt dir config)
    (fun error =>
       log_warning ("Failed to generate sitemap/robots.txt: " +:+ err_message error));;
  server ← startPreviewServer env config;
  setServerProcess (Some server).

(** The completions of the tasks in the run of [main] from [st]. *)
Definition taskCompletions (dir : string) (env : Env) (config : Config) (st : State)
  : list (Completion bool) :=
  renderCompletions dir env config (snd (beforeRendering dir env config st)).

(** What [loadConfig] completes with, read off the files. *)
Definition loadOutcome (dir : string) (env : Env) (fs : gmap string string)
  : Completion Config :=
  match fs !! CONFIG_PATH dir with
  | None => Throw (enoent (CONFIG_PATH dir))
  | Some configContents =>
      match yamlSettings env configContents with
      | Throw e => Throw e
      | Normal config =>
          match fs !! ROUTES_PATH dir with
          | None => Throw (enoent (ROUTES_PATH dir))
          | Some routesContents =>
              match yamlRoutes env routesContents with
              | Throw e => Throw e
              | Normal RoutesNull =>
                  Throw (typeError "Cannot read properties of undefined (reading 'routes')")
              | Normal (RoutesMap entry) =>
                  Normal (withRoutes config match entry with Some listed => listed | None => [] end)
              end
          end
      end
  end.

(** What [main] resolves to. *)
Definition pipelineOk (dir : string) (env : Env) (st : State) : bool :=
  match loadOutcome dir env (files st) with
  | Throw _ => false
  | Normal config =>
      (bool_decide (DIST_DIR dir ∈ dirs st)
       || bool_decide (is_Some (files st !! DIST_DIR dir)))
      && match serverStart env with
         | Throw _ => false
         | Normal _ =>
             match prerenderOutcome dir env config
                     (snd (beforeRendering dir env config st)) with
             | Throw _ => false
             | Normal successCount => Nat.eqb successCount (total config)
             end
         end
  end.

(** No fatal error on the way to, or after, the rendering of the tasks: the
    prebuilt output root is there, the preview server starts, the browser
    starts, opens a context and closes, and the gate accepts its ceiling. *)
Definition noFatalError (dir : string) (env : Env) (config : Config) (st : State) : bool :=
  (bool_decide (DIST_DIR dir ∈ dirs st)
   || bool_decide (is_Some (files st !! DIST_DIR dir)))
  && match serverStart env with Normal _ => true | Throw _ => false end
  && resolved (launch env (headlessOption config) (launchArgs config))
  && resolved (newContext env)
  && match pLimit (concurrencyOption config) with Normal _ => true | Throw _ => false end
  && resolved (browserClose env).

(** The task at position [i] succeeds in the run of [main] from [st]: its
    page opens, [prerenderRoute] returns [true] and its page closes, so
    that its promise resolves to [true]. *)
Definition taskSucceeds (dir : string) (env : Env) (config : Config) (st : State)
    (i : nat) : Prop :=
  taskCompletions dir env config st !! i = Some (Normal true).

(** The sample environment with a route file that parses to a mapping
    without a [routes] entry. *)
Definition noRoutesEnv : Env :=
  {| yamlSettings := yamlSettings demoEnv;
     yamlRoutes := fun _ => Normal (RoutesMap None);
     isoNow := isoNow demoEnv;
     serverStart := serverStart demoEnv;
     killOutcome := killOutcome demoEnv;
     launch := launch demoEnv;
     newContext := newContext demoEnv;
     browserClose := browserClose demoEnv;
     pages := pages demoEnv;
     prettierFormat := prettierFormat demoEnv |}.

(** The gate of the sample run (eight tasks, ceiling 3) after the first
    three tasks were started, the second of them completed and the fourth
    started: three tasks are in flight. *)
Definition busyGate : Gate :=
  {| queued := [4; 5; 6; 7]; inFlight := [0; 2; 3]; settled := [1] |}.

(** The sample environment with a browser that does not close. *)
Definition closeFailsEnv : Env :=
  {| yamlSettings := yamlSettings demoEnv;
     yamlRoutes := yamlRoutes demoEnv;
     isoNow := isoNow demoEnv;
     serverStart := serverStart demoEnv;
     killOutcome := killOutcome demoEnv;
     launch := launch demoEnv;
     newContext := newContext demoEnv;
     browserClose := Some (mkError "Target page, context or browser has been closed");
     pages := pages demoEnv;
     prettierFormat := prettierFormat demoEnv |}.

(** *** Tactics *)

(** Unfolds the operations of the monad. *)
Ltac unfold_m :=
  unfold mbind, mret, M_bind, M_ret, bind, ret, throw, tryCatch, tryFinally,
    await, awaitValue, log_info, log_error, log_warning, print,
    existsSync, readFileSync, setServerProcess, getServerProcess, sendSignal.

(** Runs the monadic code of the goal as far as its inputs are known. *)
Ltac run_m :=
  repeat (progress (unfold_m;
                    cbn [files dirs refused console signals serverProcess fst snd])).

(** *** Definitions of the further properties *)

(** [{ ...config, production_url: u }]. *)
Definition withProductionUrl (config : Config) (u : string) : Config :=
  {| production_url := u;
     preview_port := preview_port config;
     default_locale := default_locale config;
     default_theme := default_theme config;
     locales := locales config;
     themes := themes config;
     routes := routes config;
     exclude_from_sitemap := exclude_from_sitemap config;
     playwright := playwright config;
     page_load_timeout := page_load_timeout config;
     wait_for_ready_timeout := wait_for_ready_timeout config;
     network_idle_timeout := network_idle_timeout config;
     additional_wait := additional_wait config |}.

(** The path under which the observer records a response. *)
Definition relativePath (config : Config) (response : Response) : string :=
  JsString.replace (url response) (production_url config) "".

(** A response that the observer records as a stylesheet. *)
Definition isStylesheet (response : Response) : bool :=
  ok response && JsString.includes (url response) "/assets/"
  && JsString.endsWith (url response) ".css".

(** A response that the observer records as a script chunk. *)
Definition isScriptChunk (config : Config) (response : Response) : bool :=
  ok response && JsString.includes (url response) "/assets/"
  && negb (JsString.endsWith (url response) ".css")
  && JsString.endsWith (url response) ".js"
  && negb (JsString.includes (relativePath config response) "/assets/index-").

(** [m] sends no signal and leaves the variable [serverProcess] alone. *)
Definition keepsServer {A : Type} (m : M A) : Prop :=
  forall st : State,
    signals (snd (m st)) = signals st
    /\ serverProcess (snd (m st)) = serverProcess st.

(** The process id of the preview server, when [main] gets as far as
    starting it and it starts: the configuration is loaded, the prebuilt
    output root exists, and the server is presumed ready. *)
Definition startedServer (dir : string) (env : Env) (st : State) : option nat :=
  match fst (loadConfig dir env st), fst (existsSync (DIST_DIR dir) st), serverStart env with
  | Normal _, Normal true, Normal started => Some started
  | _, _, _ => None
  end.

(** An absolute path in normal form: a slash, then the segments separated
    by slashes. *)
Definition rootedPath (segments : list string) : string :=
  "/" +:+ JsString.join "/" segments.

(** The segments of the directory three levels above the script's. *)
Definition projectSegments (dir : string) : list string :=
  Path.normalizeSegments false (JsString.split "/" dir ++ [".."; ".."; ".."]) [].

(** [stopPreviewServer(serverProcess)] as [main] calls it: on the server
    process the script holds at that moment. *)
Definition stopHeldServer (env : Env) : M unit :=
  server ← getServerProcess; stopPreviewServer env server.

(** The placeholder written after [text] is the first occurrence of the
    placeholder: it occurs neither in [text] nor across its end. *)
Definition placeholderFirst (text placeholder : string) : Prop :=
  JsString.cut (text +:+ placeholder) placeholder = Some (text, "").

Definition quoted (s : string) : string := "'" +:+ s +:+ "'".



(** The sample state with a regular file named [blocked] in the output
    root. *)
Definition blockedState : State :=
  {| files := <[ DIST_DIR demoDir +:+ "/blocked" := "x" ]> (files demoState);
     dirs := dirs demoState;
     refused := refused demoState;
     console := [];
     signals := [];
     serverProcess := None |}.

(** The sample state in which the operating system lets nothing be
    written to [index.html] in the output root. *)
Definition deniedState : State :=
  {| files := files demoState;
     dirs := dirs demoState;
     refused := fun p =>
       if String.eqb p (DIST_DIR demoDir +:+ "/index.html")
       then Some (fsError "EACCES" "permission denied" "open" p)
       else None;
     console := [];
     signals := [];
     serverProcess := None |}.

(** * Properties *)

(** ** Strings *)

Lemma sapp_nil_l (s : string) : "" +:+ s = s.
Proof. reflexivity. Qed.

Lemma sapp_cons (c : ascii) (s t : string) : String c s +:+ t = String c (s +:+ t).
Proof. reflexivity. Qed.

Lemma sapp_nil_r (s : string) : s +:+ "" = s.
Proof. induction s as [|c s IH]; [reflexivity|]. rewrite sapp_cons, IH. reflexivity. Qed.

Lemma sapp_assoc (a b c : string) : (a +:+ b) +:+ c = a +:+ b +:+ c.
Proof.
  induction a as [|x a IH]; [reflexivity|].
  rewrite !sapp_cons, IH. reflexivity.
Qed.

Lemma sapp_length (a b : string) :
  String.length (a +:+ b) = String.length a + String.length b.
Proof.
  induction a as [|x a IH]; [reflexivity|].
  rewrite sapp_cons. simpl. rewrite IH. reflexivity.
Qed.

Lemma sapp_inv_head (a b c : string) : a +:+ b = a +:+ c -> b = c.
Proof.
  induction a as [|x a IH]; intros H; [exact H|].
  rewrite !sapp_cons in H. injection H as H. auto.
Qed.

Lemma sapp_inv_tail (a b c : string) : a +:+ c = b +:+ c -> a = b.
Proof.
  revert b. induction a as [|x a IH]; intros [|y b] H.
  - reflexivity.
  - apply (f_equal String.length) in H.
    rewrite sapp_nil_l, sapp_cons in H. simpl in H. rewrite sapp_length in H. lia.
  - apply (f_equal String.length) in H.
    rewrite sapp_nil_l, sapp_cons in H. simpl in H. rewrite sapp_length in H. lia.
  - rewrite !sapp_cons in H. injection H as -> H. f_equal. auto.
Qed.

Lemma ascii_eqb_true (c d : ascii) : Ascii.eqb c d = true -> c = d.
Proof. apply Ascii.eqb_eq. Qed.

(** *** Splitting and joining *)

Lemma split_not_nil (sep : ascii) (s : string) : JsString.split sep s <> [].
Proof.
  induction s as [|c s IH]; simpl; [discriminate|].
  destruct (Ascii.eqb c sep); [discriminate|].
  destruct (JsString.split sep s); [contradiction|discriminate].
Qed.

Lemma split_cons (sep c : ascii) (s : string) :
  Ascii.eqb c sep = false ->
  exists seg segs,
    JsString.split sep s = seg :: segs /\
    JsString.split sep (String c s) = String c seg :: segs.
Proof.
  intros Hc. simpl. rewrite Hc.
  destruct (JsString.split sep s) as [|seg segs] eqn:E.
  - exfalso. exact (split_not_nil _ _ E).
  - eauto.
Qed.

Lemma split_lacks (sep : ascii) (s : string) :
  JsString.lacks sep s = true -> JsString.split sep s = [s].
Proof.
  induction s as [|c s IH]; simpl; [reflexivity|].
  intros [Hc Hs]%andb_true_iff. apply negb_true_iff in Hc.
  rewrite Hc, (IH Hs). reflexivity.
Qed.

Lemma split_app (sep : ascii) (a b : string) :
  JsString.split sep (a +:+ String sep b) = JsString.split sep a ++ JsString.split sep b.
Proof.
  induction a as [|c a IH].
  - rewrite sapp_nil_l. simpl. rewrite Ascii.eqb_refl. reflexivity.
  - rewrite sapp_cons. simpl. destruct (Ascii.eqb c sep) eqn:Hc.
    + rewrite IH. reflexivity.
    + rewrite IH. destruct (JsString.split sep a) as [|seg segs] eqn:E.
      * exfalso. exact (split_not_nil _ _ E).
      * reflexivity.
Qed.

Lemma split_segments_lack (sep : ascii) (s : string) :
  Forall (fun seg => JsString.lacks sep seg = true) (JsString.split sep s).
Proof.
  induction s as [|c s IH]; simpl.
  - constructor; [reflexivity|constructor].
  - destruct (Ascii.eqb c sep) eqn:Hc.
    + constructor; [reflexivity|exact IH].
    + destruct (JsString.split sep s) as [|seg segs]; [repeat constructor; simpl; rewrite Hc; reflexivity|].
      inversion IH as [|? ? Hseg Hsegs]; subst.
      constructor; [|exact Hsegs]. simpl. rewrite Hc, Hseg. reflexivity.
Qed.

Lemma join_cons (sep x y : string) (l : list string) :
  JsString.join sep (x :: y :: l) = x +:+ sep +:+ JsString.join sep (y :: l).
Proof. reflexivity. Qed.

Lemma join_split (sep : ascii) (s : string) :
  JsString.join (String sep "") (JsString.split sep s) = s.
Proof.
  induction s as [|c s IH]; [reflexivity|].
  simpl JsString.split. destruct (Ascii.eqb c sep) eqn:Hc.
  - apply ascii_eqb_true in Hc. subst c.
    destruct (JsString.split sep s) as [|seg segs] eqn:E.
    + exfalso. exact (split_not_nil _ _ E).
    + rewrite join_cons, IH. reflexivity.
  - destruct (JsString.split sep s) as [|seg segs] eqn:E.
    + exfalso. exact (split_not_nil _ _ E).
    + destruct segs as [|seg' segs].
      * simpl in IH. simpl. rewrite IH. reflexivity.
      * rewrite join_cons in IH. rewrite join_cons, sapp_cons, IH. reflexivity.
Qed.

Lemma split_join (sep : ascii) (l : list string) :
  l <> [] ->
  Forall (fun seg => JsString.lacks sep seg = true) l ->
  JsString.split sep (JsString.join (String sep "") l) = l.
Proof.
  induction l as [|x l IH]; intros Hne Hall; [contradiction|].
  inversion Hall as [|? ? Hx Hl]; subst.
  destruct l as [|y l].
  - simpl. apply split_lacks. exact Hx.
  - rewrite join_cons, sapp_cons, sapp_nil_l, split_app, (split_lacks _ _ Hx).
    rewrite IH; [reflexivity|discriminate|exact Hl].
Qed.

Lemma join_snoc (sep : string) (l : list string) (x : string) :
  l <> [] -> JsString.join sep (l ++ [x]) = JsString.join sep l +:+ sep +:+ x.
Proof.
  induction l as [|y l IH]; intros Hne; [contradiction|].
  destruct l as [|z l].
  - reflexivity.
  - change ((y :: z :: l) ++ [x]) with (y :: (z :: l) ++ [x]).
    change ((z :: l) ++ [x]) with (z :: (l ++ [x])) at 1.
    rewrite join_cons. change (z :: l ++ [x]) with ((z :: l) ++ [x]).
    rewrite IH by discriminate. rewrite join_cons, !sapp_assoc. reflexivity.
Qed.

Lemma sapp_eq_empty (a b : string) : a +:+ b = "" -> a = "" /\ b = "".
Proof. destruct a; [auto|]. rewrite sapp_cons. discriminate. Qed.

Lemma join_eq_empty (sep : string) (l : list string) :
  JsString.join sep l = "" -> Forall (fun seg => seg = "") l.
Proof.
  induction l as [|x l IH]; intros H; [constructor|].
  destruct l as [|y l].
  - constructor; [exact H|constructor].
  - rewrite join_cons in H. apply sapp_eq_empty in H as [Hx H].
    apply sapp_eq_empty in H as [_ H]. constructor; auto.
Qed.

Lemma endsWith_cons (c : ascii) (s p : string) :
  JsString.endsWith (String c s) p
  = String.eqb (String c s) p || JsString.endsWith s p.
Proof. reflexivity. Qed.

Lemma endsWith_app (s p : string) :
  JsString.endsWith s p = true -> exists a, s = a +:+ p.
Proof.
  induction s as [|c s IH]; intros H.
  - destruct p; [exists ""; reflexivity|discriminate].
  - rewrite endsWith_cons in H. apply orb_true_iff in H as [H|H].
    + apply String.eqb_eq in H. exists "". rewrite sapp_nil_l. exact H.
    + destruct (IH H) as [a ->]. exists (String c a). reflexivity.
Qed.

Lemma startsWith_one (c p : ascii) (s : string) :
  JsString.startsWith (String c s) (String p "") = Ascii.eqb p c.
Proof. destruct s; cbn [JsString.startsWith]; apply andb_true_r. Qed.

Lemma startsWith_app (a b : string) (p : ascii) :
  a <> "" -> JsString.startsWith (a +:+ b) (String p "") = JsString.startsWith a (String p "").
Proof.
  destruct a as [|c a]; [contradiction|]. intros _. rewrite sapp_cons. simpl.
  destruct (a +:+ b), a; reflexivity.
Qed.

Lemma plainSegment_spec (seg : string) :
  plainSegment seg = true -> seg <> "" /\ seg <> "." /\ seg <> "..".
Proof.
  unfold plainSegment. intros [[H1 H2]%andb_true_iff H3]%andb_true_iff.
  apply negb_true_iff, String.eqb_neq in H1, H2, H3. auto.
Qed.

(** ** [path.join] on plain segments *)

Lemma normalizeSegments_plain (up : bool) (segs stack : list string) :
  Forall (fun seg => plainSegment seg = true) segs ->
  Path.normalizeSegments up segs stack = rev stack ++ segs.
Proof.
  revert stack. induction segs as [|seg segs IH]; intros stack Hall; simpl.
  - rewrite List.app_nil_r. reflexivity.
  - inversion Hall as [|? ? Hseg Hsegs]; subst.
    destruct (plainSegment_spec _ Hseg) as (H1 & H2 & H3).
    apply String.eqb_neq in H1, H2, H3. rewrite H1, H2, H3. simpl.
    rewrite (IH _ Hsegs). simpl. rewrite <- List.app_assoc. reflexivity.
Qed.

Lemma normalizeSegments_app (up : bool) (a b stack : list string) :
  Path.normalizeSegments up (a ++ b) stack
  = Path.normalizeSegments up b (rev (Path.normalizeSegments up a stack)).
Proof.
  revert stack. induction a as [|seg a IH]; intros stack; simpl.
  - rewrite rev_involutive. reflexivity.
  - destruct (String.eqb seg "" || String.eqb seg "."); [apply IH|].
    destruct (String.eqb seg ".."); [|apply IH].
    destruct stack as [|top below]; [apply IH|].
    destruct (String.eqb top ".."); apply IH.
Qed.

Lemma normalizeSegments_lack (up : bool) (segs stack : list string) :
  Forall (fun seg => JsString.lacks "/" seg = true) segs ->
  Forall (fun seg => JsString.lacks "/" seg = true) stack ->
  Forall (fun seg => JsString.lacks "/" seg = true) (Path.normalizeSegments up segs stack).
Proof.
  revert stack. induction segs as [|seg segs IH]; intros stack Hsegs Hstack; simpl.
  - apply Forall_rev. exact Hstack.
  - inversion Hsegs as [|? ? Hseg Hrest]; subst.
    destruct (String.eqb seg "" || String.eqb seg "."); [auto|].
    destruct (String.eqb seg "..").
    + destruct stack as [|top below].
      * apply IH; [exact Hrest|]. destruct up; [repeat constructor; exact Hseg|constructor].
      * inversion Hstack; subst.
        destruct (String.eqb top ".."); apply IH; auto.
        destruct up; [constructor; auto|auto].
    + apply IH; [exact Hrest|]. constructor; auto.
Qed.


Lemma keptOf_lack (d : string) :
  Forall (fun seg => JsString.lacks "/" seg = true) (keptOf d).
Proof.
  apply normalizeSegments_lack; [apply split_segments_lack|constructor].
Qed.

Lemma normalize_plain (d : string) (segs : list string) :
  segs <> [] ->
  Forall (fun seg => plainSegment seg = true) segs ->
  Forall (fun seg => JsString.lacks "/" seg = true) segs ->
  Path.join [d; JsString.join "/" segs] = rootOf d +:+ JsString.join "/" (keptOf d ++ segs).
Proof.
  intros Hne Hplain Hlack.
  remember (JsString.join "/" segs) as rel eqn:Erel.
  assert (Hsplit : JsString.split "/" rel = segs) by (subst rel; apply split_join; assumption).
  assert (Hlast : exists front final, segs = front ++ [final] /\ final <> "").
  { destruct (exists_last Hne) as (front & final & ->). exists front, final. split; [reflexivity|].
    apply Forall_app in Hplain as [_ Hfinal]. inversion Hfinal; subst.
    apply plainSegment_spec. assumption. }
  destruct Hlast as (front & final & Hsegs & Hfinal).
  assert (Hrel : rel <> "").
  { intros E. rewrite E in Erel. symmetry in Erel.
    apply join_eq_empty in Erel. rewrite Hsegs in Erel.
    apply Forall_app in Erel as [_ Erel]. inversion Erel; subst. contradiction. }
  assert (Htrail : forall p front', JsString.split "/" p = front' ++ segs ->
                            JsString.endsWith p "/" = false).
  { intros p front' Hp. destruct (JsString.endsWith p "/") eqn:E; [|reflexivity].
    apply endsWith_app in E as [a ->].
    rewrite split_app in Hp. simpl in Hp. rewrite Hsegs in Hp.
    rewrite List.app_assoc in Hp. apply app_inj_tail in Hp as [_ Hp]. congruence. }
  assert (Hout : forall p up front',
             JsString.split "/" p = front' ++ segs ->
             Path.normalizeString p up
             = JsString.join "/" (Path.normalizeSegments up front' [] ++ segs)).
  { intros p up front' Hp. unfold Path.normalizeString. rewrite Hp.
    rewrite normalizeSegments_app, normalizeSegments_plain by assumption.
    rewrite rev_involutive. reflexivity. }
  assert (Hnonempty : forall l, JsString.join "/" (l ++ segs) <> "").
  { intros l E. apply join_eq_empty in E. rewrite Hsegs, List.app_assoc in E.
    apply Forall_app in E as [_ E]. inversion E; subst. contradiction. }
  unfold Path.join. simpl Path.joinArgs.
  apply String.eqb_neq in Hrel. rewrite Hrel. clear Erel.
  destruct (String.eqb d "") eqn:Hd.
  - apply String.eqb_eq in Hd. subst d.
    unfold Path.normalize. rewrite Hrel.
    assert (Habs : JsString.startsWith rel "/" = false).
    { destruct rel as [|c rel']; [reflexivity|]. rewrite startsWith_one.
      destruct (Ascii.eqb "/" c) eqn:Hc; [|reflexivity].
      apply ascii_eqb_true in Hc. subst c. exfalso.
      simpl in Hsplit. destruct segs as [|seg segs']; [contradiction|].
      injection Hsplit as Hseg _. subst seg.
      inversion Hplain; subst. discriminate. }
    rewrite Habs, (Htrail rel [] Hsplit). simpl negb.
    rewrite (Hout rel true [] Hsplit). simpl Path.normalizeSegments.
    pose proof (Hnonempty []) as Hn. simpl in Hn. apply String.eqb_neq in Hn.
    simpl app. rewrite Hn.
    unfold rootOf, keptOf. simpl. rewrite sapp_nil_r. reflexivity.
  - apply String.eqb_neq in Hd.
    assert (Hp : JsString.split "/" (d +:+ "/" +:+ rel) = JsString.split "/" d ++ segs).
    { change ("/" +:+ rel) with (String "/" rel). rewrite split_app, Hsplit. reflexivity. }
    unfold Path.normalize.
    assert (Hpne : String.eqb (d +:+ "/" +:+ rel) "" = false).
    { apply String.eqb_neq. intros E. apply sapp_eq_empty in E as [E _]. contradiction. }
    rewrite Hpne, (Htrail _ _ Hp), (Hout _ _ _ Hp).
    rewrite (startsWith_app d _ "/" Hd).
    pose proof (Hnonempty (Path.normalizeSegments (negb (JsString.startsWith d "/"))
                             (JsString.split "/" d) [])) as Hn.
    apply String.eqb_neq in Hn. rewrite Hn.
    unfold rootOf, keptOf. rewrite sapp_nil_r. reflexivity.
Qed.

(** ** The output path *)

Lemma specStripped_iff (r stripped : string) :
  SpecStripped r stripped <-> stripped = JsString.stripLeadingSlash r.
Proof.
  split.
  - intros [rest|r' H].
    + unfold JsString.stripLeadingSlash. rewrite Ascii.eqb_refl. reflexivity.
    + destruct r' as [|c r'']; [reflexivity|].
      rewrite startsWith_one, Ascii.eqb_sym in H.
      unfold JsString.stripLeadingSlash. rewrite H. reflexivity.
  - intros ->. destruct r as [|c r']; [constructor; reflexivity|].
    unfold JsString.stripLeadingSlash. destruct (Ascii.eqb c "/") eqn:Hc.
    + apply ascii_eqb_true in Hc. subst c. constructor.
    + constructor. rewrite startsWith_one, Ascii.eqb_sym. exact Hc.
Qed.

Lemma specBase_iff (r base : string) : SpecBase r base <-> base = outputFile r.
Proof.
  unfold outputFile. split.
  - intros [|r' stripped Hr Hs]; [reflexivity|].
    apply String.eqb_neq in Hr. rewrite Hr.
    apply specStripped_iff in Hs. subst. reflexivity.
  - intros ->. destruct (String.eqb r "/") eqn:Hr.
    + apply String.eqb_eq in Hr. subst. constructor.
    + apply String.eqb_neq in Hr. constructor; [exact Hr|].
      apply specStripped_iff. reflexivity.
Qed.

Lemma specSuffix_iff (default code suffix : string) :
  SpecSuffix default code suffix
  <-> suffix = if String.eqb code default then "" else "." +:+ code.
Proof.
  split.
  - intros [H|H].
    + apply String.eqb_eq in H. rewrite H. reflexivity.
    + apply String.eqb_neq in H. rewrite H. reflexivity.
  - intros ->. destruct (String.eqb code default) eqn:H.
    + apply String.eqb_eq in H. constructor. exact H.
    + apply String.eqb_neq in H. constructor. exact H.
Qed.

(** C2.  The output path of the task (r, l, t) is the path the
    specification derives: the base segment is [index] for the root route
    and otherwise the route without its leading slash followed by [/index];
    the theme suffix and the locale suffix are empty for the default code
    and a dot followed by the code otherwise; base, theme suffix, locale
    suffix and [.html], in this order, are joined under the output root.
    The derivation of the specification yields exactly one path, the one
    [prerenderRoute] computes. *)
Theorem output_path_derivation (dir : string) (config : Config) (r l t p : string) :
  SpecOutputPath dir config r l t p <-> p = outputPath dir config r l t.
Proof.
  unfold outputPath, outputName, themeSuffix, localeSuffix. split.
  - intros [base ts ls Hb Ht Hl].
    apply specBase_iff in Hb. apply specSuffix_iff in Ht, Hl. subst. reflexivity.
  - intros ->. constructor.
    + apply specBase_iff. reflexivity.
    + apply specSuffix_iff. reflexivity.
    + apply specSuffix_iff. reflexivity.
Qed.



Lemma outputName_segments (config : Config) (r l t : string) :
  outputName config r l t
  = JsString.join "/" (routeSegments r ++ [fileName config l t]).
Proof.
  unfold outputName, outputFile, routeSegments, fileName.
  destruct (String.eqb r "/"); [reflexivity|].
  rewrite join_snoc by apply split_not_nil.
  rewrite join_split, !sapp_assoc. reflexivity.
Qed.

Lemma forallb_true_Forall {A : Type} (f : A -> bool) (l : list A) :
  forallb f l = true <-> Forall (fun x => f x = true) l.
Proof.
  induction l as [|x l IH]; simpl.
  - split; [constructor|reflexivity].
  - rewrite andb_true_iff, IH. split.
    + intros [? ?]. constructor; assumption.
    + intros H. inversion H; subst. split; assumption.
Qed.

Lemma canonicalRoute_segments (r : string) :
  canonicalRoute r = true ->
  Forall (fun seg => plainSegment seg = true) (routeSegments r).
Proof.
  unfold canonicalRoute, routeSegments. intros H.
  destruct (String.eqb r "/") eqn:Hr; [constructor|]. simpl in H.
  destruct r as [|c rest]; [discriminate|].
  apply andb_true_iff in H as [Hc H]. unfold JsString.stripLeadingSlash. rewrite Hc.
  apply forallb_true_Forall. exact H.
Qed.

Lemma canonicalRoute_inj (r1 r2 : string) :
  canonicalRoute r1 = true -> canonicalRoute r2 = true ->
  routeSegments r1 = routeSegments r2 -> r1 = r2.
Proof.
  unfold canonicalRoute, routeSegments. intros H1 H2 E.
  destruct (String.eqb r1 "/") eqn:E1, (String.eqb r2 "/") eqn:E2.
  - apply String.eqb_eq in E1, E2. congruence.
  - symmetry in E. exfalso. exact (split_not_nil _ _ E).
  - exfalso. exact (split_not_nil _ _ E).
  - simpl in H1, H2. destruct r1 as [|c1 s1], r2 as [|c2 s2]; try discriminate.
    apply andb_true_iff in H1 as [Hc1 _]. apply andb_true_iff in H2 as [Hc2 _].
    unfold JsString.stripLeadingSlash in E. rewrite Hc1, Hc2 in E.
    apply ascii_eqb_true in Hc1, Hc2. subst.
    rewrite <- (join_split "/" s1), <- (join_split "/" s2), E. reflexivity.
Qed.

Lemma lacks_app (c : ascii) (a b : string) :
  JsString.lacks c (a +:+ b) = JsString.lacks c a && JsString.lacks c b.
Proof.
  induction a as [|x a IH]; [reflexivity|].
  rewrite sapp_cons. simpl. rewrite IH, andb_assoc. reflexivity.
Qed.

Lemma plainCode_spec (code : string) :
  plainCode code = true ->
  JsString.lacks "." code = true /\ JsString.lacks "/" code = true.
Proof. unfold plainCode. intros H. apply andb_true_iff in H. exact H. Qed.

Lemma fileName_plain (config : Config) (l t : string) :
  plainSegment (fileName config l t) = true.
Proof. reflexivity. Qed.

Lemma fileName_lacks_slash (config : Config) (l t : string) :
  plainCode l = true -> plainCode t = true ->
  JsString.lacks "/" (fileName config l t) = true.
Proof.
  intros [_ Hl]%plainCode_spec [_ Ht]%plainCode_spec.
  unfold fileName, themeSuffix, localeSuffix. rewrite !lacks_app.
  destruct (String.eqb t (default_theme config)), (String.eqb l (default_locale config));
    rewrite ?lacks_app, ?Hl, ?Ht; reflexivity.
Qed.

(** The two suffixes, cut at the dots. *)
Lemma suffixes_split (config : Config) (l t : string) :
  plainCode l = true -> plainCode t = true ->
  JsString.split "." (themeSuffix config t +:+ localeSuffix config l)
  = [""] ++ (if String.eqb t (default_theme config) then [] else [t])
         ++ (if String.eqb l (default_locale config) then [] else [l]).
Proof.
  intros [Hl _]%plainCode_spec [Ht _]%plainCode_spec.
  unfold themeSuffix, localeSuffix.
  destruct (String.eqb t (default_theme config)), (String.eqb l (default_locale config)).
  - reflexivity.
  - change ("" +:+ "." +:+ l) with ("" +:+ String "." l).
    rewrite split_app, (split_lacks _ _ Hl). reflexivity.
  - rewrite sapp_nil_r. change ("." +:+ t) with ("" +:+ String "." t).
    rewrite split_app, (split_lacks _ _ Ht). reflexivity.
  - change (("." +:+ t) +:+ "." +:+ l) with ("" +:+ String "." (t +:+ String "." l)).
    rewrite !split_app, (split_lacks _ _ Hl), (split_lacks _ _ Ht). reflexivity.
Qed.

Lemma fileName_inj (config : Config) (l1 t1 l2 t2 : string) :
  plainCode l1 = true -> plainCode t1 = true ->
  plainCode l2 = true -> plainCode t2 = true ->
  (t1 <> default_theme config -> l2 <> default_locale config -> t1 <> l2) ->
  (t2 <> default_theme config -> l1 <> default_locale config -> t2 <> l1) ->
  fileName config l1 t1 = fileName config l2 t2 ->
  l1 = l2 /\ t1 = t2.
Proof.
  intros Hl1 Ht1 Hl2 Ht2 Hx Hy E. unfold fileName in E.
  apply sapp_inv_head in E. rewrite <- !sapp_assoc in E. apply sapp_inv_tail in E.
  apply (f_equal (JsString.split ".")) in E.
  rewrite !suffixes_split in E by assumption.
  destruct (String.eqb t1 (default_theme config)) eqn:A1,
           (String.eqb l1 (default_locale config)) eqn:B1,
           (String.eqb t2 (default_theme config)) eqn:A2,
           (String.eqb l2 (default_locale config)) eqn:B2;
    simpl in E; try discriminate;
    repeat match goal with
           | H : String.eqb _ _ = true |- _ => apply String.eqb_eq in H
           | H : String.eqb _ _ = false |- _ => apply String.eqb_neq in H
           end;
    try (injection E as E1 E2); try (injection E as E1); subst; try (split; congruence).
  all: exfalso;
    first [ apply Hx; [assumption|assumption|reflexivity]
          | apply Hy; [assumption|assumption|reflexivity] ].
Qed.

Lemma outputPath_inj (dir : string) (config : Config) (r1 l1 t1 r2 l2 t2 : string) :
  canonicalRoute r1 = true -> canonicalRoute r2 = true ->
  plainCode l1 = true -> plainCode t1 = true ->
  plainCode l2 = true -> plainCode t2 = true ->
  (t1 <> default_theme config -> l2 <> default_locale config -> t1 <> l2) ->
  (t2 <> default_theme config -> l1 <> default_locale config -> t2 <> l1) ->
  outputPath dir config r1 l1 t1 = outputPath dir config r2 l2 t2 ->
  r1 = r2 /\ l1 = l2 /\ t1 = t2.
Proof.
  intros Hr1 Hr2 Hl1 Ht1 Hl2 Ht2 Hx Hy E.
  assert (Hsegs : forall r l t, canonicalRoute r = true -> plainCode l = true ->
            plainCode t = true ->
            let segs := routeSegments r ++ [fileName config l t] in
            segs <> [] /\ Forall (fun seg => plainSegment seg = true) segs
            /\ Forall (fun seg => JsString.lacks "/" seg = true) segs).
  { intros r l t Hr Hl Ht. simpl. split; [|split].
    - intros H. apply app_eq_nil in H as [_ H]. discriminate.
    - apply Forall_app. split; [apply canonicalRoute_segments; exact Hr|].
      constructor; [apply fileName_plain|constructor].
    - apply Forall_app. split.
      + unfold routeSegments. destruct (String.eqb r "/"); [constructor|].
        apply split_segments_lack.
      + constructor; [apply fileName_lacks_slash; assumption|constructor]. }
  destruct (Hsegs r1 l1 t1 Hr1 Hl1 Ht1) as (N1 & P1 & L1).
  destruct (Hsegs r2 l2 t2 Hr2 Hl2 Ht2) as (N2 & P2 & L2).
  unfold outputPath in E. rewrite !outputName_segments in E.
  rewrite !normalize_plain in E by assumption.
  apply sapp_inv_head in E.
  apply (f_equal (JsString.split "/")) in E.
  rewrite !split_join in E;
    try (apply Forall_app; split; [apply keptOf_lack|assumption]);
    try (intros H; apply app_eq_nil in H as [_ H]; contradiction).
  apply List.app_inv_head in E. apply app_inj_tail in E as [Er Ef].
  apply (canonicalRoute_inj _ _ Hr1 Hr2) in Er.
  apply fileName_inj in Ef; try assumption. tauto.
Qed.


Lemma wellFormed_parts (config : Config) (r l t : string) :
  wellFormedConfig config = true -> inTaskSpace config r l t ->
  canonicalRoute r = true /\ plainCode l = true /\ plainCode t = true.
Proof.
  unfold wellFormedConfig, inTaskSpace.
  intros [[[Hr Hl]%andb_true_iff Ht]%andb_true_iff _]%andb_true_iff (Ir & Il & It).
  rewrite forallb_forall in Hr, Hl, Ht. auto.
Qed.

Lemma wellFormed_apart (config : Config) (l t : string) :
  wellFormedConfig config = true ->
  In l (locales config) -> In t (themes config) ->
  t <> default_theme config -> l <> default_locale config -> t <> l.
Proof.
  unfold wellFormedConfig, codesApart.
  intros [_ H]%andb_true_iff Il It Ht Hl E.
  rewrite forallb_forall in H. specialize (H t It).
  rewrite forallb_forall in H. specialize (H l Il).
  apply String.eqb_neq in Ht, Hl. rewrite Ht, Hl in H. simpl in H.
  apply negb_true_iff, String.eqb_neq in H. contradiction.
Qed.

(** C1 (as stated, refuted).  A configuration with non-empty locale and
    theme lists in which two distinct tasks share one output path: the code
    [en] is both a theme and a locale, so the root route in the default
    locale with theme [en] and the root route in locale [en] with the
    default theme are both written to [index.en.html]. *)
Lemma output_path_collision :
  exists (config : Config) (r1 l1 t1 r2 l2 t2 : string),
    locales config <> [] /\ themes config <> [] /\
    inTaskSpace config r1 l1 t1 /\ inTaskSpace config r2 l2 t2 /\
    (r1, l1, t1) <> (r2, l2, t2) /\
    forall dir : string,
      outputPath dir config r1 l1 t1 = outputPath dir config r2 l2 t2.
Proof.
  exists clashConfig, "/", "tr", "en", "/", "en", "light".
  unfold inTaskSpace. simpl.
  repeat split; try discriminate; auto 10.
Qed.

(** The other conditions of [wellFormedConfig] are needed as well: a code
    with a dot in it, and a route with a slash at its end. *)
Example output_path_collision_dotted_code :
  outputName demoConfig "/" "dark.en" "light" = outputName demoConfig "/" "en" "dark".
Proof. reflexivity. Qed.

Example output_path_collision_trailing_slash :
  outputPath demoDir demoConfig "/about/" "tr" "light"
  = outputPath demoDir demoConfig "/about" "tr" "light".
Proof. reflexivity. Qed.

(** C1 (amended).  For a configuration whose routes are canonical (the root
    route, or a slash followed by non-empty segments other than [.] and
    [..], separated by single slashes), whose locale and theme codes hold
    neither a dot nor a slash, and in which no code is both a non-default
    theme and a non-default locale, the output path is injective over the
    task space; and for every configuration, well-formed or not, and every
    route the pair (default locale, default theme) yields the unsuffixed
    path, base followed by [.html]. *)
Theorem output_path_injective (dir : string) (config : Config) :
  (wellFormedConfig config = true ->
   forall r1 l1 t1 r2 l2 t2 : string,
     inTaskSpace config r1 l1 t1 -> inTaskSpace config r2 l2 t2 ->
     outputPath dir config r1 l1 t1 = outputPath dir config r2 l2 t2 ->
     (r1, l1, t1) = (r2, l2, t2))
  /\ (forall r : string,
         outputPath dir config r (default_locale config) (default_theme config)
         = Path.join [DIST_DIR dir; outputFile r +:+ ".html"]).
Proof.
  split.
  - intros Hwf r1 l1 t1 r2 l2 t2 H1 H2 E.
    destruct (wellFormed_parts _ _ _ _ Hwf H1) as (Hr1 & Hl1 & Ht1).
    destruct (wellFormed_parts _ _ _ _ Hwf H2) as (Hr2 & Hl2 & Ht2).
    destruct H1 as (_ & Il1 & It1), H2 as (_ & Il2 & It2).
    destruct (outputPath_inj dir config r1 l1 t1 r2 l2 t2) as (-> & -> & ->);
      try assumption; try reflexivity.
    + apply wellFormed_apart; assumption.
    + apply wellFormed_apart; assumption.
  - intros r. unfold outputPath, outputName, themeSuffix, localeSuffix.
    rewrite !String.eqb_refl. reflexivity.
Qed.

(** The sample configuration is well formed, and its output path is
    injective; the configuration with the clashing code [en] is not well
    formed, and its default pair yields the unsuffixed path all the same. *)
Lemma output_path_injective_witness :
  wellFormedConfig demoConfig = true
  /\ (forall r1 l1 t1 r2 l2 t2 : string,
         inTaskSpace demoConfig r1 l1 t1 -> inTaskSpace demoConfig r2 l2 t2 ->
         outputPath demoDir demoConfig r1 l1 t1 = outputPath demoDir demoConfig r2 l2 t2 ->
         (r1, l1, t1) = (r2, l2, t2))
  /\ wellFormedConfig clashConfig = false
  /\ (forall r : string,
         outputPath demoDir clashConfig r "tr" "light"
         = Path.join [DIST_DIR demoDir; outputFile r +:+ ".html"]).
Proof.
  split; [reflexivity|]. split.
  - exact (proj1 (output_path_injective demoDir demoConfig) eq_refl).
  - split; [reflexivity|].
    exact (proj2 (output_path_injective demoDir clashConfig)).
Defined.

(** ** Sitemap priority and change frequency *)

(** C7 (as stated, refuted).  Priority and change frequency are not
    functions of the depth alone: the routes [/] and [//] both have depth 0
    (no non-empty segment) and get different values. *)
Lemma sitemap_values_not_by_depth :
  exists r1 r2 : string,
    depth r1 = depth r2
    /\ calculatePriority r1 <> calculatePriority r2
    /\ calculateChangeFreq r1 <> calculateChangeFreq r2.
Proof. exists "/", "//". repeat split; discriminate. Qed.

(** C7 (amended).  For every route that is the root route [/] or has at
    least one non-empty segment, priority and change frequency are the
    values of the depth table at the route's depth: depth 0 (the root) gives
    1.0 and weekly, depth 1 gives 0.8 and monthly, depth 2 gives 0.6 and
    monthly, depth 3 or more gives 0.4 and yearly. *)
Theorem sitemap_depth_table (route : string) :
  route = "/" \/ 1 <= depth route ->
  calculatePriority route = tablePriority (depth route)
  /\ calculateChangeFreq route = tableChangeFreq (depth route).
Proof.
  unfold calculatePriority, calculateChangeFreq.
  destruct (String.eqb route "/") eqn:E.
  - apply String.eqb_eq in E. subst. intros _. split; reflexivity.
  - apply String.eqb_neq in E. intros [H|H]; [contradiction|].
    destruct (depth route) as [|[|[|d]]]; [lia|split; reflexivity..].
Qed.

Lemma sitemap_depth_table_witness :
  ("/blog/post" = "/" \/ 1 <= depth "/blog/post")
  /\ calculatePriority "/blog/post" = tablePriority (depth "/blog/post")
  /\ calculateChangeFreq "/blog/post" = tableChangeFreq (depth "/blog/post").
Proof.
  split; [right; vm_compute; lia|].
  apply (sitemap_depth_table "/blog/post"). right. vm_compute. lia.
Defined.

(** ** The sitemap *)










(** ** The page renderer *)

Lemma prerenderRoute_short (dir : string) (env : Env) (page : PageRun)
    (route locale theme : string) (config : Config) (st : State) (html : string) :
  content page = Normal html -> String.length html < 1000 ->
  exists msg : string,
    prerenderRoute dir env page route locale theme config st
    = (Normal false,
       {| files := files st; dirs := dirs st; refused := refused st;
          console := console st
                     ++ [(Stdout, "[INFO] " +:+ "Rendering " +:+ route +:+ " [" +:+ locale
                                  +:+ "] [" +:+ theme +:+ "]")]
                     ++ [(Stderr, "[ERROR] " +:+ msg)];
          signals := signals st; serverProcess := serverProcess st |})
    /\ (goto page (renderUrl config route locale theme) = None ->
        waitForFunction page = None ->
        waitForLoadState page = None -> waitForTimeout page = None ->
        msg = "Empty HTML for " +:+ route).
Proof.
  intros Hc Hlen. apply Nat.ltb_lt in Hlen.
  unfold prerenderRoute. run_m. rewrite Hc.
  destruct (goto page _) as [e1|]; run_m.
  { eexists. split; [rewrite <- List.app_assoc; reflexivity|discriminate]. }
  destruct (waitForFunction page) as [e2|]; run_m.
  { eexists. split; [rewrite <- List.app_assoc; reflexivity|discriminate]. }
  destruct (waitForLoadState page) as [e3|]; run_m.
  { eexists. split; [rewrite <- List.app_assoc; reflexivity|discriminate]. }
  destruct (waitForTimeout page) as [e4|]; run_m.
  { eexists. split; [rewrite <- List.app_assoc; reflexivity|discriminate]. }
  rewrite Hlen. run_m.
  eexists. split; [rewrite <- List.app_assoc; reflexivity|]. reflexivity.
Qed.

(** C5.  A task whose captured document is shorter than 1000 characters
    returns failure, writes no file and creates no directory, and reports
    the failure on the error stream of the console. *)
Theorem short_document_is_failure (dir : string) (env : Env) (page : PageRun)
    (route locale theme : string) (config : Config) (st : State) (html : string) :
  content page = Normal html ->
  String.length html < 1000 ->
  let result := prerenderRoute dir env page route locale theme config st in
  fst result = Normal false
  /\ files (snd result) = files st
  /\ dirs (snd result) = dirs st
  /\ exists msg : string,
       List.last (console (snd result)) (Stdout, "") = (Stderr, "[ERROR] " +:+ msg)
       /\ (goto page (renderUrl config route locale theme) = None ->
           waitForFunction page = None ->
           waitForLoadState page = None -> waitForTimeout page = None ->
           msg = "Empty HTML for " +:+ route).
Proof.
  intros Hc Hlen result.
  destruct (prerenderRoute_short dir env page route locale theme config st html Hc Hlen)
    as (msg & E & Hmsg).
  subst result. rewrite E. cbn [fst snd files dirs console].
  repeat split. exists msg. split; [|exact Hmsg].
  rewrite List.app_assoc. apply last_last.
Qed.

Lemma short_document_is_failure_witness :
  content (demoPage "<html></html>" demoResponses) = Normal "<html></html>"
  /\ String.length "<html></html>" < 1000
  /\ fst (prerenderRoute demoDir demoEnv (demoPage "<html></html>" demoResponses)
            "/about" "en" "dark" demoConfig demoState) = Normal false.
Proof.
  split; [reflexivity|]. split; [vm_compute; lia|].
  apply (short_document_is_failure demoDir demoEnv (demoPage "<html></html>" demoResponses)
           "/about" "en" "dark" demoConfig demoState "<html></html>").
  - reflexivity.
  - vm_compute. lia.
Defined.

(** *** Preload hints *)

Lemma startsWith_sound (s p : string) :
  JsString.startsWith s p = true -> s = p +:+ JsString.drop (String.length p) s.
Proof.
  revert s. induction p as [|c p IH]; intros s H; [reflexivity|].
  destruct s as [|d s]; [discriminate|]. cbn [JsString.startsWith] in H.
  apply andb_true_iff in H as [Hc H]. apply ascii_eqb_true in Hc. subst d.
  rewrite sapp_cons. cbn [String.length JsString.drop]. f_equal. exact (IH s H).
Qed.

Lemma startsWith_complete (p r : string) : JsString.startsWith (p +:+ r) p = true.
Proof.
  induction p as [|c p IH]; [destruct r; reflexivity|].
  rewrite sapp_cons. cbn [JsString.startsWith]. rewrite Ascii.eqb_refl. exact IH.
Qed.

Lemma cut_unfold (s p : string) :
  JsString.cut s p
  = if JsString.startsWith s p then Some ("", JsString.drop (String.length p) s)
    else match s with
         | EmptyString => None
         | String c s' =>
             match JsString.cut s' p with
             | Some (before, after) => Some (String c before, after)
             | None => None
             end
         end.
Proof. destruct s; reflexivity. Qed.

(** [cut] finds an occurrence ... *)
Lemma cut_sound (s p before after : string) :
  JsString.cut s p = Some (before, after) -> s = before +:+ p +:+ after.
Proof.
  revert before. induction s as [|c s IH]; intros before H; rewrite cut_unfold in H.
  - destruct (JsString.startsWith "" p) eqn:E; [|discriminate].
    injection H as <- <-. rewrite sapp_nil_l. apply startsWith_sound. exact E.
  - destruct (JsString.startsWith (String c s) p) eqn:E.
    + injection H as <- <-. rewrite sapp_nil_l. apply startsWith_sound. exact E.
    + destruct (JsString.cut s p) as [[b a]|] eqn:Ec; [|discriminate].
      injection H as <- <-. rewrite sapp_cons. f_equal. apply IH. reflexivity.
Qed.

(** ... and it is the first one. *)
Lemma cut_first (s p before after before' after' : string) :
  JsString.cut s p = Some (before, after) ->
  s = before' +:+ p +:+ after' ->
  String.length before <= String.length before'.
Proof.
  revert before before'. induction s as [|c s IH]; intros before before' H E;
    rewrite cut_unfold in H.
  - destruct (JsString.startsWith "" p); [|discriminate].
    injection H as <- <-. simpl. lia.
  - destruct (JsString.startsWith (String c s) p) eqn:Es.
    + injection H as <- <-. simpl. lia.
    + destruct (JsString.cut s p) as [[b a]|] eqn:Ec; [|discriminate].
      injection H as <- <-.
      destruct before' as [|c' before''].
      * rewrite sapp_nil_l in E. rewrite E, startsWith_complete in Es. discriminate.
      * rewrite sapp_cons in E. injection E as -> E. simpl.
        apply le_n_S. exact (IH b before'' eq_refl E).
Qed.

Lemma getSubstitution_plain (matched before after template : string) :
  JsString.lacks "$" template = true ->
  JsString.getSubstitution matched before after template = template.
Proof.
  induction template as [|c t IH]; [reflexivity|].
  cbn [JsString.lacks JsString.getSubstitution].
  intros [Hc Ht]%andb_true_iff. apply negb_true_iff in Hc. rewrite Hc.
  f_equal. exact (IH Ht).
Qed.

Lemma lacks_join (c : ascii) (sep : string) (l : list string) :
  JsString.lacks c sep = true ->
  Forall (fun s => JsString.lacks c s = true) l ->
  JsString.lacks c (JsString.join sep l) = true.
Proof.
  intros Hsep. induction l as [|x l IH]; intros H; [reflexivity|].
  inversion H as [|? ? Hx Hl]; subst. destruct l as [|y l]; [exact Hx|].
  rewrite join_cons, !lacks_app, Hx, Hsep, (IH Hl). reflexivity.
Qed.

Lemma preloadHints_lack (resources : Resources) :
  Forall (fun href => JsString.lacks "$" href = true) (css resources ++ js resources) ->
  Forall (fun hint => JsString.lacks "$" hint = true) (preloadHints resources).
Proof.
  intros [Hcss Hjs]%Forall_app. unfold preloadHints. apply Forall_app. split.
  - destruct (Nat.ltb 0 (length (css resources))); [|constructor].
    apply Forall_map. eapply Forall_impl; [exact Hcss|].
    intros href H. unfold cssHint. rewrite !lacks_app, H. reflexivity.
  - destruct (Nat.ltb 0 (length (js resources))); [|constructor].
    apply Forall_map. eapply Forall_impl; [exact Hjs|].
    intros href H. unfold jsHint. rewrite !lacks_app, H. reflexivity.
Qed.

(** When no captured path holds a dollar sign and the document holds
    [</head>], the hints stand, one per line, right before the first
    [</head>] of the document (two spaces before it), and the document is
    otherwise unchanged. *)
Lemma injectHints_plain (html before after : string) (resources : Resources) :
  Forall (fun href => JsString.lacks "$" href = true) (css resources ++ js resources) ->
  css resources ++ js resources <> [] ->
  JsString.cut html "</head>" = Some (before, after) ->
  html = before +:+ "</head>" +:+ after
  /\ injectHints html (preloadHints resources)
     = before +:+ newline +:+ JsString.join newline (preloadHints resources)
       +:+ newline +:+ "  " +:+ "</head>" +:+ after.
Proof.
  intros Hplain Hne Hcut. split; [apply cut_sound; exact Hcut|].
  unfold injectHints.
  assert (Hlen : Nat.ltb 0 (length (preloadHints resources)) = true).
  { apply Nat.ltb_lt. unfold preloadHints. rewrite List.length_app.
    destruct (css resources) as [|x l]; simpl.
    - destruct (js resources) as [|y l']; [contradiction|]. simpl. lia.
    - lia. }
  rewrite Hlen. unfold JsString.replace. rewrite Hcut.
  rewrite getSubstitution_plain.
  - unfold headReplacement. rewrite !sapp_assoc. reflexivity.
  - unfold headReplacement. rewrite !lacks_app.
    rewrite lacks_join; [reflexivity|reflexivity|]. apply preloadHints_lack. exact Hplain.
Qed.

(** C8 (the code at the failing input).  A script chunk whose path holds
    two dollar signs in a row is captured, and the hint synthesized for it
    carries that path; the document after the insertion does not hold this
    hint, but one whose path has a single dollar sign; and this is the
    document that is written to the output path. *)
Lemma preload_hint_dollar_mangled :
  let hints := preloadHints (observe demoConfig dollarResponses) in
  let page := demoPage demoHtml dollarResponses in
  let result := prerenderRoute demoDir demoEnv page "/" "tr" "light" demoConfig demoState in
  hints = [jsHint "/assets/vendor-a$$b.js"]
  /\ JsString.includes (injectHints demoHtml hints) (jsHint "/assets/vendor-a$$b.js") = false
  /\ JsString.includes (injectHints demoHtml hints) (jsHint "/assets/vendor-a$b.js") = true
  /\ fst result = Normal true
  /\ files (snd result) !! outputPath demoDir demoConfig "/" "tr" "light"
     = Some (injectHints demoHtml hints).
Proof. vm_compute. repeat split. Qed.

(** ** The file system *)

(** A write either throws and changes nothing, or puts the text at the
    path and changes nothing else; it succeeds only into a directory that
    exists, and never onto a directory. *)
Lemma writeFileSync_effect (p data : string) (st : State) :
  (exists e, writeFileSync p data st = (Throw e, st))
  \/ (writeFileSync p data st
      = (Normal tt,
         {| files := <[ p := data ]> (files st); dirs := dirs st; refused := refused st;
            console := console st; signals := signals st;
            serverProcess := serverProcess st |})
      /\ Path.dirname p ∈ dirs st /\ (p ∉ dirs st) /\ refused st p = None).
Proof.
  unfold writeFileSync.
  destruct (bool_decide (p ∈ dirs st)) eqn:E1; [left; eauto|].
  destruct (existsb (isFile st) (ancestors p)); [left; eauto|].
  destruct (bool_decide (Path.dirname p ∈ dirs st)) eqn:E2; cbn [negb]; [|left; eauto].
  destruct (refused st p) as [e|]; [left; eauto|].
  right. apply bool_decide_eq_false in E1. apply bool_decide_eq_true in E2. auto.
Qed.

Lemma missingAmong_subset (st : State) (chain : list string) (d : string) :
  In d (missingAmong st chain) -> In d chain /\ d ∉ dirs st.
Proof.
  induction chain as [|x chain IH]; cbn [missingAmong]; [contradiction|].
  destruct (bool_decide (x ∈ dirs st)) eqn:E; [contradiction|].
  apply bool_decide_eq_false in E. intros [<-|H].
  - split; [left; reflexivity|exact E].
  - destruct (IH H). split; [right; assumption|assumption].
Qed.

Lemma makeDirs_bounds (refuse : string -> option JsError) (todo : list string)
    (made : gset string) :
  made ⊆ snd (makeDirs refuse todo made)
  /\ snd (makeDirs refuse todo made) ⊆ list_to_set todo ∪ made
  /\ (fst (makeDirs refuse todo made) = None ->
      snd (makeDirs refuse todo made) = list_to_set todo ∪ made).
Proof.
  revert made. induction todo as [|d todo IH]; intros made; cbn [makeDirs].
  - cbn [fst snd list_to_set]. split; [reflexivity|].
    split; [apply union_subseteq_r|]. intros _. symmetry. apply (left_id_L ∅ (∪)).
  - destruct (refuse d) as [e|]; cbn [fst snd].
    + split; [reflexivity|]. split; [apply union_subseteq_r|discriminate].
    + destruct (IH ({[ d ]} ∪ made)) as (H1 & H2 & H3). clear IH.
      cbn [list_to_set].
      assert (Hassoc : list_to_set todo ∪ ({[ d ]} ∪ made)
                       = ({[ d ]} ∪ list_to_set todo) ∪ made).
      { rewrite (assoc_L (∪)), (comm_L (∪) (list_to_set todo) {[ d ]}). reflexivity. }
      rewrite <- Hassoc. split; [|split; [exact H2|exact H3]].
      transitivity ({[ d ]} ∪ made); [apply union_subseteq_r|exact H1].
Qed.

(** A recursive [mkdir] changes nothing but the directories; it removes
    none, and adds only the directory itself and directories above it that
    were missing; when it returns, the directory exists. *)
Lemma mkdirSync_effect (p : string) (st : State) :
  exists (c : Completion unit) (dirs' : gset string),
    mkdirSync p st
    = (c, {| files := files st; dirs := dirs'; refused := refused st;
             console := console st; signals := signals st;
             serverProcess := serverProcess st |})
    /\ dirs st ⊆ dirs'
    /\ (forall d, d ∈ dirs' -> d ∈ dirs st \/ (In d (p :: ancestors p) /\ d ∉ dirs st))
    /\ (c = Normal tt -> p ∈ dirs').
Proof.
  unfold mkdirSync. cbv zeta.
  set (missing := missingAmong st (p :: ancestors p)).
  destruct (existsb (isFile st) missing).
  - exists (Throw (if isFile st p then eexist p else enotdir "mkdir" p)), (dirs st).
    split; [destruct st; reflexivity|]. split; [set_solver|]. split; [auto|discriminate].
  - destruct (makeDirs_bounds (refused st) (rev missing) (dirs st)) as (H1 & H2 & H3).
    eexists. eexists. split; [reflexivity|]. split; [exact H1|]. split.
    + intros d Hd. apply H2 in Hd. apply elem_of_union in Hd as [Hd|Hd]; [|auto].
      right. apply elem_of_list_to_set in Hd.
      apply missingAmong_subset. fold missing.
      apply list_elem_of_In in Hd. apply in_rev. exact Hd.
    + destruct (fst (makeDirs (refused st) (rev missing) (dirs st))) eqn:E;
        [discriminate|]. intros _. rewrite (H3 eq_refl). clear H1 H2 H3 E.
      subst missing. cbn [missingAmong].
      destruct (bool_decide (p ∈ dirs st)) eqn:Ep.
      * apply bool_decide_eq_true in Ep. apply elem_of_union_r. exact Ep.
      * cbn [rev]. rewrite list_to_set_app. apply elem_of_union_l, elem_of_union_r.
        cbn [list_to_set]. apply elem_of_union_l, elem_of_singleton. reflexivity.
Qed.

(** ** The sitemap file *)








(** ** Completions *)

Lemma yields_ret {A : Type} (a : A) : yields (mret a) (Normal a).
Proof. intros st. exists st. reflexivity. Qed.

Lemma yields_bind {A B : Type} (m : M A) (k : A -> M B) (a : A) (c : Completion B) :
  yields m (Normal a) -> yields (k a) c -> yields (m ≫= k) c.
Proof.
  intros Hm Hk st. destruct (Hm st) as [st1 E1]. destruct (Hk st1) as [st2 E2].
  exists st2. unfold mbind, M_bind, bind. rewrite E1. exact E2.
Qed.

Lemma yields_bind_throw {A B : Type} (m : M A) (k : A -> M B) (e : JsError) :
  yields m (Throw e) -> yields (m ≫= k) (Throw e).
Proof.
  intros Hm st. destruct (Hm st) as [st1 E1].
  exists st1. unfold mbind, M_bind, bind. rewrite E1. reflexivity.
Qed.

Lemma yields_tryCatch_normal {A : Type} (m : M A) (h : JsError -> M A) (a : A) :
  yields m (Normal a) -> yields (tryCatch m h) (Normal a).
Proof.
  intros Hm st. destruct (Hm st) as [st1 E1].
  exists st1. unfold tryCatch. rewrite E1. reflexivity.
Qed.

Lemma yields_tryCatch_throw {A : Type} (m : M A) (h : JsError -> M A) (e : JsError)
    (c : Completion A) :
  yields m (Throw e) -> yields (h e) c -> yields (tryCatch m h) c.
Proof.
  intros Hm Hh st. destruct (Hm st) as [st1 E1]. destruct (Hh st1) as [st2 E2].
  exists st2. unfold tryCatch. rewrite E1. exact E2.
Qed.

Lemma yields_tryFinally {A : Type} (m : M A) (cleanup : M unit) (c : Completion A) :
  yields m c -> yields cleanup (Normal tt) -> yields (tryFinally m cleanup) c.
Proof.
  intros Hm Hf st. destruct (Hm st) as [st1 E1]. destruct (Hf st1) as [st2 E2].
  exists st2. unfold tryFinally. rewrite E1, E2. reflexivity.
Qed.

Lemma yields_tryFinally_throw {A : Type} (m : M A) (cleanup : M unit)
    (c : Completion A) (e : JsError) :
  yields m c -> yields cleanup (Throw e) -> yields (tryFinally m cleanup) (Throw e).
Proof.
  intros Hm Hf st. destruct (Hm st) as [st1 E1]. destruct (Hf st1) as [st2 E2].
  exists st2. unfold tryFinally. rewrite E1, E2. reflexivity.
Qed.

Lemma yields_print (stream : Stream) (line : string) :
  yields (print stream line) (Normal tt).
Proof. intros st. eexists. reflexivity. Qed.

Lemma yields_log_info (msg : string) : yields (log_info msg) (Normal tt).
Proof. apply yields_print. Qed.

Lemma yields_log_error (msg : string) : yields (log_error msg) (Normal tt).
Proof. apply yields_print. Qed.

Lemma yields_log_warning (msg : string) : yields (log_warning msg) (Normal tt).
Proof. apply yields_print. Qed.


Lemma yields_awaitValue {A : Type} (outcome : Completion A) :
  yields (awaitValue outcome) outcome.
Proof. intros st. exists st. destruct outcome; reflexivity. Qed.

Lemma yields_setServerProcess (sp : option ServerProcess) :
  yields (setServerProcess sp) (Normal tt).
Proof. intros st. eexists. reflexivity. Qed.

(** ** The run of the tasks *)

Lemma fst_bind {A B : Type} (m : M A) (k : A -> M B) (st : State) (a : A) :
  fst (m st) = Normal a -> (m ≫= k) st = k a (snd (m st)).
Proof.
  intros E. unfold mbind, M_bind, bind. destruct (m st) as [c st1].
  cbn [fst snd] in *. subst c. reflexivity.
Qed.

Lemma fst_bind_throw {A B : Type} (m : M A) (k : A -> M B) (st : State) (e : JsError) :
  fst (m st) = Throw e -> (m ≫= k) st = (Throw e, snd (m st)).
Proof.
  intros E. unfold mbind, M_bind, bind. destruct (m st) as [c st1].
  cbn [fst snd] in *. subst c. reflexivity.
Qed.

Lemma yields_fst {A : Type} (m : M A) (c : Completion A) (st : State) :
  yields m c -> fst (m st) = c.
Proof. intros H. destruct (H st) as [st' E]. rewrite E. reflexivity. Qed.

Lemma runEach_length {A : Type} (ms : list (M A)) (st : State) :
  length (runEach ms st) = length ms.
Proof.
  revert st. induction ms as [|m ms IH]; intros st; [reflexivity|].
  cbn [runEach length]. rewrite IH. reflexivity.
Qed.

(** [Promise.all] resolves to the results of the promises when all of them
    resolve, and rejects with the first rejection. *)
Lemma promiseAll_fst {A : Type} (ms : list (M A)) (st : State) :
  fst (promiseAll ms st) = allOutcomes (runEach ms st).
Proof.
  revert st. induction ms as [|m ms IH]; intros st; [reflexivity|].
  cbn [promiseAll runEach allOutcomes].
  destruct (fst (m st)) as [a|e] eqn:E.
  - rewrite (fst_bind _ _ _ _ E). specialize (IH (snd (m st))).
    destruct (allOutcomes (runEach ms (snd (m st)))) as [others|e].
    + rewrite (fst_bind _ _ _ _ IH). reflexivity.
    + rewrite (fst_bind_throw _ _ _ _ IH). reflexivity.
  - rewrite (fst_bind_throw _ _ _ _ E). reflexivity.
Qed.

Lemma prerenderAll_fst (dir : string) (env : Env) (config : Config) (st : State) :
  fst (prerenderAll dir env config st) = prerenderOutcome dir env config st.
Proof.
  unfold prerenderAll, prerenderOutcome, renderCompletions, beforeTasks.
  destruct (launch env (headlessOption config) (launchArgs config)) as [e|];
    [run_m; reflexivity|].
  destruct (newContext env) as [e|]; [run_m; reflexivity|].
  destruct (pLimit (concurrencyOption config)) as [limit|e]; [|run_m; reflexivity].
  run_m.
  match goal with
  | |- context [promiseAll ?ms ?s] =>
      pose proof (promiseAll_fst ms s) as Hp; destruct (promiseAll ms s) as [c s']
  end.
  cbn [fst] in Hp. subst c.
  destruct (allOutcomes _) as [results|e]; [|reflexivity].
  destruct (browserClose env) as [e|]; reflexivity.
Qed.

(** ** The orchestrator *)

Lemma loadConfig_run (dir : string) (env : Env) (st : State) :
  loadConfig dir env st = (loadOutcome dir env (files st), st).
Proof.
  unfold loadConfig, loadOutcome. run_m.
  destruct (files st !! CONFIG_PATH dir) as [configContents|]; run_m; [|reflexivity].
  destruct (yamlSettings env configContents) as [config|e]; run_m; [|reflexivity].
  destruct (files st !! ROUTES_PATH dir) as [routesContents|]; run_m; [|reflexivity].
  destruct (yamlRoutes env routesContents) as [[|entry]|e]; run_m; reflexivity.
Qed.

Lemma yields_caught_unit (m : M unit) (h : JsError -> M unit) :
  (forall e, yields (h e) (Normal tt)) -> yields (tryCatch m h) (Normal tt).
Proof.
  intros Hh st. unfold tryCatch. destruct (m st) as [[[]|e] st1].
  - exists st1. reflexivity.
  - apply Hh.
Qed.

Lemma stopPreviewServer_yields (env : Env) (server : option ServerProcess) :
  yields (stopPreviewServer env server) (Normal tt).
Proof.
  unfold stopPreviewServer. destruct server as [sp|]; [|apply yields_ret].
  destruct (negb (killed sp)); [|apply yields_ret].
  eapply yields_bind; [apply yields_log_info|].
  apply yields_caught_unit. intros e. apply yields_log_warning.
Qed.

Lemma tryCatch_fst {A : Type} (m : M A) (h : JsError -> M A) (fallback : A) (st : State) :
  (forall e, yields (h e) (Normal fallback)) ->
  fst (tryCatch m h st)
  = Normal match fst (m st) with Normal a => a | Throw _ => fallback end.
Proof.
  intros Hh. unfold tryCatch. destruct (m st) as [[a|e] st1]; [reflexivity|].
  cbn [fst]. apply yields_fst, Hh.
Qed.

Lemma tryFinally_fst {A : Type} (m : M A) (cleanup : M unit) (st : State) :
  yields cleanup (Normal tt) -> fst (tryFinally m cleanup st) = fst (m st).
Proof.
  intros Hc. unfold tryFinally. destruct (m st) as [c st1].
  destruct (Hc st1) as [st2 E]. rewrite E. reflexivity.
Qed.

Lemma cleanup_yields (env : Env) :
  yields (server ← getServerProcess; stopPreviewServer env server) (Normal tt).
Proof.
  intros st. unfold mbind, M_bind, bind, getServerProcess.
  apply stopPreviewServer_yields.
Qed.

(** What the part of [main] after the check of the output root completes
    with. *)
Lemma startPreviewServer_yields (env : Env) (config : Config) :
  yields (startPreviewServer env config)
    match serverStart env with
    | Normal started => Normal {| pid := started; killed := false |}
    | Throw e => Throw e
    end.
Proof.
  unfold startPreviewServer.
  eapply yields_bind; [apply yields_log_info|].
  destruct (serverStart env) as [started|e].
  - eapply yields_bind; [apply (yields_awaitValue (Normal started))|].
    eapply yields_bind; [apply yields_log_info|]. apply yields_ret.
  - eapply yields_bind_throw. apply (yields_awaitValue (Throw e)).
Qed.

Lemma bind_at {A B : Type} (m : M A) (k : A -> M B) (st st1 : State) (a : A) :
  m st = (Normal a, st1) -> (m ≫= k) st = k a st1.
Proof. intros E. unfold mbind, M_bind, bind. rewrite E. reflexivity. Qed.

Lemma bind_throw_at {A B : Type} (m : M A) (k : A -> M B) (st st1 : State) (e : JsError) :
  m st = (Throw e, st1) -> (m ≫= k) st = (Throw e, st1).
Proof. intros E. unfold mbind, M_bind, bind. rewrite E. reflexivity. Qed.

(** The state in which [main] calls [prerenderAll]. *)
Lemma main_body_fst (dir : string) (env : Env) (st : State) :
  let s2 := snd (setServerProcess None (snd (log_info "SSG Pre-Rendering - Starting" st))) in
  match
    fst ((config ← loadConfig dir env;
          log_info ("Config: " +:+ pretty (length (routes config)) +:+ " routes");;
          distExists ← existsSync (DIST_DIR dir);
          if negb distExists then
            log_error "dist/ not found. Run npm run build first";;
            mret false
          else
            tryCatch (buildWorker dir config)
              (fun error =>
                 log_warning ("Failed to build _worker.js: " +:+ err_message error));;
            tryCatch (generateSitemap dir env config;; generateRobotsTxt dir config)
              (fun error =>
                 log_warning ("Failed to generate sitemap/robots.txt: "
                              +:+ err_message error));;
            server ← startPreviewServer env config;
            setServerProcess (Some server);;
            successCount ← prerenderAll dir env config;
            log_info ("Complete: " +:+ pretty successCount +:+ "/" +:+ pretty (total config)
                      +:+ " successful (" +:+ pretty (length (routes config))
                      +:+ " routes × " +:+ pretty (length (locales config))
                      +:+ " locales × " +:+ pretty (length (themes config))
                      +:+ " themes)");;
            mret (Nat.eqb successCount (total config))) s2)
  with
  | Normal success => success
  | Throw _ => false
  end = pipelineOk dir env st.
Proof.
  intros s2. unfold pipelineOk.
  pose proof (loadConfig_run dir env s2) as Hload.
  change (files s2) with (files st) in Hload.
  destruct (loadOutcome dir env (files st)) as [config|e].
  2:{ erewrite bind_throw_at by exact Hload. reflexivity. }
  erewrite bind_at by exact Hload.
  erewrite fst_bind by reflexivity.
  erewrite fst_bind by reflexivity.
  unfold existsSync. cbn [snd].
  match goal with
  | |- context [negb ?b] =>
      change b with (bool_decide (DIST_DIR dir ∈ dirs st)
                     || bool_decide (is_Some (files st !! DIST_DIR dir)))
  end.
  destruct (bool_decide (DIST_DIR dir ∈ dirs st)
            || bool_decide (is_Some (files st !! DIST_DIR dir))); cbn [negb andb];
    [|reflexivity].
  erewrite fst_bind
    by (apply yields_fst, yields_caught_unit; intros e; apply yields_log_warning).
  erewrite fst_bind
    by (apply yields_fst, yields_caught_unit; intros e; apply yields_log_warning).
  pose proof (startPreviewServer_yields env config) as Hs.
  destruct (serverStart env) as [started|e].
  2:{ erewrite fst_bind_throw by (apply yields_fst; exact Hs). reflexivity. }
  erewrite fst_bind by (apply yields_fst; exact Hs).
  erewrite fst_bind by reflexivity.
  match goal with
  | |- context [(prerenderAll dir env config ≫= _) ?s] =>
      assert (Hstate : snd (beforeRendering dir env config st) = s)
  end.
  { unfold beforeRendering.
    erewrite fst_bind by reflexivity. erewrite fst_bind by reflexivity.
    fold s2. erewrite fst_bind by reflexivity.
    erewrite fst_bind
      by (apply yields_fst, yields_caught_unit; intros e; apply yields_log_warning).
    erewrite fst_bind
      by (apply yields_fst, yields_caught_unit; intros e; apply yields_log_warning).
    erewrite fst_bind by (apply yields_fst; exact Hs).
    reflexivity. }
  rewrite Hstate.
  match goal with
  | |- context [(prerenderAll dir env config ≫= _) ?s] =>
      pose proof (prerenderAll_fst dir env config s) as Hp;
      destruct (prerenderOutcome dir env config s) as [n|e]
  end.
  - erewrite fst_bind by exact Hp. reflexivity.
  - erewrite fst_bind_throw by exact Hp. reflexivity.
Qed.

Lemma main_fst (dir : string) (env : Env) (st : State) :
  fst (main dir env st) = Normal (pipelineOk dir env st).
Proof.
  unfold main.
  erewrite fst_bind by reflexivity. erewrite fst_bind by reflexivity.
  rewrite tryFinally_fst by apply cleanup_yields.
  rewrite (tryCatch_fst _ _ false).
  - f_equal. apply main_body_fst.
  - intros e. cbv beta. eapply yields_bind; [|apply yields_ret].
    destruct (bool_decide (err_code e = Some "ENOENT")); apply yields_log_error.
Qed.

Lemma main_run (dir : string) (env : Env) (st : State) :
  exists st' : State, main dir env st = (Normal (pipelineOk dir env st), st').
Proof.
  exists (snd (main dir env st)). rewrite <- main_fst. apply surjective_pairing.
Qed.

Lemma tasksOf_length (config : Config) : length (tasksOf config) = total config.
Proof.
  unfold tasksOf, total.
  assert (Hin : forall route,
             length (flat_map (fun locale =>
                       map (fun theme =>
                              {| task_route := route; task_locale := locale;
                                 task_theme := theme |})
                           (themes config))
                     (locales config))
             = length (locales config) * length (themes config)).
  { intros route. induction (locales config) as [|l ls IH]; [reflexivity|].
    cbn [flat_map]. rewrite List.length_app, List.length_map, IH. reflexivity. }
  induction (routes config) as [|r rs IH]; [reflexivity|].
  cbn [flat_map]. rewrite List.length_app, Hin, IH. cbn [length]. lia.
Qed.

Lemma allOutcomes_length {A : Type} (outcomes : list (Completion A)) (results : list A) :
  allOutcomes outcomes = Normal results -> length results = length outcomes.
Proof.
  revert results. induction outcomes as [|[a|e] os IH]; intros rs H; cbn [allOutcomes] in H.
  - injection H as <-. reflexivity.
  - destruct (allOutcomes os) as [others|e]; [|discriminate].
    injection H as <-. cbn [length]. f_equal. apply IH. reflexivity.
  - discriminate.
Qed.

Lemma filter_length_le {A : Type} (f : A -> bool) (l : list A) :
  length (List.filter f l) <= length l.
Proof.
  induction l as [|x l IH]; [reflexivity|]. cbn [List.filter].
  destruct (f x); cbn [length]; lia.
Qed.

Lemma allOutcomes_all_true (outcomes : list (Completion bool)) :
  (forall i o, outcomes !! i = Some o -> o = Normal true) ->
  exists results,
    allOutcomes outcomes = Normal results
    /\ length (List.filter (fun success : bool => success) results) = length outcomes.
Proof.
  induction outcomes as [|o os IH]; intros H.
  - exists []. split; reflexivity.
  - rewrite (H 0 o eq_refl). destruct IH as (rs & E & L).
    { intros i o' Ho. apply (H (S i)). exact Ho. }
    exists (true :: rs). cbn [allOutcomes]. rewrite E. split; [reflexivity|].
    cbn [List.filter length]. rewrite L. reflexivity.
Qed.

Lemma allOutcomes_counted (outcomes : list (Completion bool)) (results : list bool) :
  allOutcomes outcomes = Normal results ->
  length (List.filter (fun success : bool => success) results) = length outcomes ->
  forall i o, outcomes !! i = Some o -> o = Normal true.
Proof.
  revert results. induction outcomes as [|[a|e] os IH]; intros rs H L i o Ho;
    cbn [allOutcomes] in H.
  - discriminate.
  - destruct (allOutcomes os) as [others|e] eqn:E; [|discriminate].
    injection H as <-.
    pose proof (filter_length_le (fun success : bool => success) others) as Hle.
    pose proof (allOutcomes_length _ _ E) as Hlen.
    cbn [List.filter length] in L. destruct a; cbn [length] in L; [|lia].
    destruct i as [|i].
    + injection Ho as <-. reflexivity.
    + apply (IH others eq_refl) with (i := i); [lia|exact Ho].
  - discriminate.
Qed.

Lemma taskCompletions_length (dir : string) (env : Env) (config : Config) (st : State) :
  length (taskCompletions dir env config st) = total config.
Proof.
  unfold taskCompletions, renderCompletions.
  rewrite runEach_length, length_imap. apply tasksOf_length.
Qed.

Lemma all_lookup_below {A : Type} (l : list A) (x : A) :
  (forall i o, l !! i = Some o -> o = x) <-> (forall i, i < length l -> l !! i = Some x).
Proof.
  split.
  - intros H i Hi. destruct (lookup_lt_is_Some_2 l i Hi) as [o Ho].
    rewrite Ho. f_equal. exact (H i o Ho).
  - intros H i o Ho. pose proof (lookup_lt_Some _ _ _ Ho) as Hi.
    rewrite (H i Hi) in Ho. injection Ho as <-. reflexivity.
Qed.

Lemma prerender_complete (dir : string) (env : Env) (config : Config) (st : State) :
  (exists n, prerenderOutcome dir env config st = Normal n
             /\ Nat.eqb n (total config) = true)
  <-> resolved (launch env (headlessOption config) (launchArgs config)) = true
      /\ resolved (newContext env) = true
      /\ (exists c, pLimit (concurrencyOption config) = Normal c)
      /\ resolved (browserClose env) = true
      /\ forall i, i < total config ->
                   renderCompletions dir env config st !! i = Some (Normal true).
Proof.
  assert (Hlen : length (renderCompletions dir env config st) = total config).
  { unfold renderCompletions. rewrite runEach_length, length_imap. apply tasksOf_length. }
  assert (Hall : (forall i, i < total config ->
                            renderCompletions dir env config st !! i = Some (Normal true))
                 <-> (forall i o, renderCompletions dir env config st !! i = Some o ->
                                  o = Normal true)).
  { rewrite <- Hlen. symmetry. apply all_lookup_below. }
  rewrite Hall. clear Hall.
  unfold prerenderOutcome, resolved.
  destruct (launch env (headlessOption config) (launchArgs config)) as [e|].
  { split; [intros (n & H & _); discriminate|intros (H & _); discriminate]. }
  destruct (newContext env) as [e|].
  { split; [intros (n & H & _); discriminate|intros (_ & H & _); discriminate]. }
  destruct (pLimit (concurrencyOption config)) as [c|e].
  2:{ split; [intros (n & H & _); discriminate|intros (_ & _ & [c H] & _); discriminate]. }
  split.
  - intros (n & H & Hn).
    destruct (allOutcomes (renderCompletions dir env config st)) as [results|e] eqn:E;
      [|discriminate].
    destruct (browserClose env) as [e|]; [discriminate|].
    injection H as <-. apply Nat.eqb_eq in Hn.
    repeat split; eauto.
    apply (allOutcomes_counted _ _ E). rewrite Hn, Hlen. reflexivity.
  - intros (_ & _ & _ & Hclose & Hall).
    destruct (browserClose env) as [e|]; [discriminate|].
    destruct (allOutcomes_all_true (renderCompletions dir env config st) Hall)
      as (results & E & L).
    rewrite E. eexists. split; [reflexivity|].
    apply Nat.eqb_eq. rewrite L. exact Hlen.
Qed.

Lemma exitCode_run (dir : string) (env : Env) (st : State) :
  fst (exitCode dir env st) = (if pipelineOk dir env st then 0 else 1)%Z.
Proof.
  unfold exitCode. destruct (main_run dir env st) as [st' E]. rewrite E. reflexivity.
Qed.

Lemma pipelineOk_iff (dir : string) (env : Env) (st : State) :
  pipelineOk dir env st = true
  <-> exists config,
        fst (loadConfig dir env st) = Normal config
        /\ noFatalError dir env config st = true
        /\ forall i, i < total config -> taskSucceeds dir env config st i.
Proof.
  rewrite loadConfig_run. cbn [fst]. unfold pipelineOk, noFatalError, taskSucceeds, taskCompletions.
  destruct (loadOutcome dir env (files st)) as [config|e].
  2:{ split; [discriminate|intros (config & H & _); discriminate]. }
  pose proof (prerender_complete dir env config (snd (beforeRendering dir env config st)))
    as Hp.
  split.
  - intros [Hd H]%andb_true_iff. exists config. split; [reflexivity|].
    destruct (serverStart env) as [started|e]; [|discriminate].
    destruct (prerenderOutcome dir env config (snd (beforeRendering dir env config st)))
      as [n|e]; [|discriminate].
    destruct (proj1 Hp (ex_intro _ n (conj eq_refl H))) as (H1 & H2 & [c H3] & H4 & H5).
    rewrite Hd, H1, H2, H3, H4. split; [reflexivity|exact H5].
  - intros (config' & E & Hok & Hall). injection E as <-.
    repeat (apply andb_true_iff in Hok as [Hok ?]).
    rewrite Hok. cbn [andb].
    destruct (serverStart env) as [started|e]; [|discriminate].
    destruct (pLimit (concurrencyOption config)) as [c|e] eqn:Ec; [|discriminate].
    destruct (proj2 Hp) as (n & -> & Hn); [|exact Hn].
    repeat split; eauto.
Qed.

(** C3 (as stated, refuted).  A run in which every task of the
    cross-product succeeds, all eight of the sample configuration, and the
    exit code is 1 all the same: closing the browser after the tasks
    rejects, which [main] treats as a fatal error. *)
Lemma exit_code_one_though_tasks_succeed :
  fst (loadConfig demoDir closeFailsEnv demoState) = Normal demoConfig
  /\ total demoConfig = 8
  /\ taskCompletions demoDir closeFailsEnv demoConfig demoState = repeat (Normal true) 8
  /\ fst (exitCode demoDir closeFailsEnv demoState) = 1%Z.
Proof.
  split; [vm_compute; reflexivity|]. split; [reflexivity|].
  split; vm_compute; reflexivity.
Qed.

(** C3 (amended).  The exit code of the process is 0 or 1.  It is 0
    exactly when the configuration was loaded, no fatal error occurred (the
    prebuilt output root exists, the preview server, the browser and the
    gate start, the browser closes) and every task of the route by locale
    by theme cross-product succeeded in the run; it is 1 otherwise, in
    particular when loading the configuration fails, when the preview
    server fails to start, and when a task does not succeed. *)
Theorem exit_code_spec (dir : string) (env : Env) (st : State) :
  let code := fst (exitCode dir env st) in
  (code = 0%Z \/ code = 1%Z)
  /\ (code = 0%Z
      <-> exists config,
            fst (loadConfig dir env st) = Normal config
            /\ noFatalError dir env config st = true
            /\ forall i, i < total config -> taskSucceeds dir env config st i)
  /\ (forall e, fst (loadConfig dir env st) = Throw e -> code = 1%Z)
  /\ (forall e, serverStart env = Throw e -> code = 1%Z)
  /\ (forall config i,
         fst (loadConfig dir env st) = Normal config -> i < total config ->
         ~ taskSucceeds dir env config st i -> code = 1%Z).
Proof.
  intros code. subst code. rewrite exitCode_run.
  pose proof (pipelineOk_iff dir env st) as Hiff.
  destruct (pipelineOk dir env st).
  - split; [left; reflexivity|]. split; [split; [intros _; apply Hiff; reflexivity|reflexivity]|].
    destruct (proj1 Hiff eq_refl) as (config & E & Hok & Hall).
    split; [intros e He; rewrite He in E; discriminate|]. split.
    + intros e He. unfold noFatalError in Hok. rewrite He in Hok.
      repeat (apply andb_true_iff in Hok as [Hok ?]). discriminate.
    + intros config' i E' Hi Hn. rewrite E in E'. injection E' as <-.
      exfalso. exact (Hn (Hall i Hi)).
  - split; [right; reflexivity|]. split.
    + split; [discriminate|]. intros H. apply Hiff in H. discriminate.
    + repeat split; reflexivity.
Qed.

(** ** Configuration assembly *)

(** C4 (as stated, refuted).  A route file that parses to a mapping without
    a [routes] entry does not make the assembly fail: a configuration is
    produced whose route list is filled in with the empty list, and the
    pipeline runs on it to exit code 0. *)
Lemma config_is_default_filled :
  exists config : Config,
    yamlRoutes noRoutesEnv "routes" = Normal (RoutesMap None)
    /\ loadConfig demoDir noRoutesEnv demoState = (Normal config, demoState)
    /\ routes config = []
    /\ fst (exitCode demoDir noRoutesEnv demoState) = 0%Z.
Proof.
  eexists. split; [reflexivity|]. split; [vm_compute; reflexivity|].
  split; [reflexivity|]. vm_compute. reflexivity.
Qed.

Lemma main_fatal_run (dir : string) (env : Env) (st : State) (e : JsError) :
  fst (loadConfig dir env st) = Throw e ->
  exists line : string,
    exitCode dir env st
    = (1%Z,
       {| files := files st; dirs := dirs st; refused := refused st;
          console := console st
                     ++ [(Stdout, "[INFO] SSG Pre-Rendering - Starting");
                         (Stderr, "[ERROR] " +:+ line)];
          signals := signals st; serverProcess := None |}).
Proof.
  rewrite loadConfig_run. cbn [fst]. intros E.
  unfold exitCode, main. run_m. rewrite loadConfig_run. cbn [files]. rewrite E.
  run_m. unfold stopPreviewServer.
  destruct (bool_decide (err_code e = Some "ENOENT")); run_m;
    eexists; rewrite <- List.app_assoc; reflexivity.
Qed.

(** C4 (amended).  Config assembly fails when the settings file or the
    route file is missing, when either is not parseable, and when the route
    file holds no document; such a failure is fatal: the exit code is 1,
    no file is written and no server is started.  Otherwise a configuration
    is produced: the settings as parsed, with the [routes] entry of the
    route file as the route list, or the empty list when the route file has
    no such entry; the state is not changed by the assembly. *)
Theorem load_config_outcomes (dir : string) (env : Env) (st : State) :
  (files st !! CONFIG_PATH dir = None \/ files st !! ROUTES_PATH dir = None ->
   exists e, fst (loadConfig dir env st) = Throw e)
  /\ (forall text e,
         files st !! CONFIG_PATH dir = Some text -> yamlSettings env text = Throw e ->
         fst (loadConfig dir env st) = Throw e)
  /\ (forall text e,
         files st !! ROUTES_PATH dir = Some text -> yamlRoutes env text = Throw e ->
         exists e', fst (loadConfig dir env st) = Throw e')
  /\ (forall text,
         files st !! ROUTES_PATH dir = Some text -> yamlRoutes env text = Normal RoutesNull ->
         exists e', fst (loadConfig dir env st) = Throw e')
  /\ (forall e,
         fst (loadConfig dir env st) = Throw e ->
         fst (exitCode dir env st) = 1%Z
         /\ files (snd (exitCode dir env st)) = files st
         /\ dirs (snd (exitCode dir env st)) = dirs st
         /\ signals (snd (exitCode dir env st)) = signals st
         /\ serverProcess (snd (exitCode dir env st)) = None)
  /\ (forall settingsText routesText settings entry,
         files st !! CONFIG_PATH dir = Some settingsText ->
         yamlSettings env settingsText = Normal settings ->
         files st !! ROUTES_PATH dir = Some routesText ->
         yamlRoutes env routesText = Normal (RoutesMap entry) ->
         loadConfig dir env st
         = (Normal (withRoutes settings
                      match entry with Some listed => listed | None => [] end), st)).
Proof.
  rewrite !loadConfig_run. cbn [fst]. unfold loadOutcome.
  split; [|split; [|split; [|split; [|split]]]].
  - intros [H|H].
    + rewrite H. eauto.
    + destruct (files st !! CONFIG_PATH dir) as [text|]; [|eauto].
      destruct (yamlSettings env text); [|eauto]. rewrite H. eauto.
  - intros text e Hf Hy. rewrite Hf, Hy. reflexivity.
  - intros text e Hf Hy.
    destruct (files st !! CONFIG_PATH dir) as [ctext|]; [|eauto].
    destruct (yamlSettings env ctext); [|eauto]. rewrite Hf, Hy. eauto.
  - intros text Hf Hy.
    destruct (files st !! CONFIG_PATH dir) as [ctext|]; [|eauto].
    destruct (yamlSettings env ctext); [|eauto]. rewrite Hf, Hy. eauto.
  - intros e He.
    destruct (main_fatal_run dir env st e) as [line E].
    { rewrite loadConfig_run. exact He. }
    rewrite E. repeat split.
  - intros ctext rtext settings entry H1 H2 H3 H4. rewrite H1, H2, H3, H4. reflexivity.
Qed.

Lemma load_config_outcomes_witness :
  files demoState !! CONFIG_PATH demoDir = Some "settings"
  /\ yamlSettings demoEnv "settings" = Normal demoConfig
  /\ files demoState !! ROUTES_PATH demoDir = Some "routes"
  /\ yamlRoutes demoEnv "routes" = Normal (RoutesMap (Some ["/"; "/about"]))
  /\ loadConfig demoDir demoEnv demoState
     = (Normal (withRoutes demoConfig ["/"; "/about"]), demoState).
Proof.
  assert (H1 : files demoState !! CONFIG_PATH demoDir = Some "settings")
    by (vm_compute; reflexivity).
  assert (H3 : files demoState !! ROUTES_PATH demoDir = Some "routes")
    by (vm_compute; reflexivity).
  split; [exact H1|]. split; [reflexivity|]. split; [exact H3|]. split; [reflexivity|].
  exact (proj2 (proj2 (proj2 (proj2 (proj2
           (load_config_outcomes demoDir demoEnv demoState)))))
           "settings" "routes" demoConfig (Some ["/"; "/about"])
           H1 eq_refl H3 eq_refl).
Defined.

(** ** Browser options *)



(** ** The admission gate *)

Lemma pLimit_positive (concurrency : JsValue) (n : nat) :
  pLimit concurrency = Normal (Bounded n) -> 1 <= n.
Proof.
  unfold pLimit. destruct concurrency as [| | |[|[]|q]| | |]; try discriminate.
  destruct (Z.eqb (Qnum q mod Z.pos (Qden q)) 0 && Z.ltb 0 (Qnum q)) eqn:E; [|discriminate].
  intros H. injection H as <-.
  apply andb_true_iff in E as [Hm Hp]. apply Z.eqb_eq in Hm. apply Z.ltb_lt in Hp.
  assert (1 <= Qnum q / Z.pos (Qden q))%Z.
  { apply Z.div_le_lower_bound; [lia|].
    apply Z.mod_divide in Hm; [|lia]. apply Z.divide_pos_le in Hm; lia. }
  lia.
Qed.

Lemma gate_invariant (ceiling : Ceiling) (n : nat) (g : Gate) :
  gateReach ceiling (gateInit n) g ->
  withinCeiling ceiling (length (inFlight g))
  /\ Permutation (queued g ++ inFlight g ++ settled g) (seq 0 n).
Proof.
  induction 1 as [|g g' ev Hreach [IHc IHp] Hstep].
  - split.
    + destruct ceiling; cbn; [lia|exact I].
    + cbn [gateInit queued inFlight settled]. rewrite !List.app_nil_r. reflexivity.
  - destruct Hstep as [t q a d Hroom|t q a1 a2 d];
      cbn [queued inFlight settled] in *.
    + split.
      * destruct ceiling; cbn in *; [rewrite List.length_app; cbn; lia|exact I].
      * rewrite <- IHp. solve_Permutation.
    + split.
      * destruct ceiling; cbn in *; [|exact I].
        rewrite List.length_app in *. cbn [length] in IHc. lia.
      * rewrite <- IHp. solve_Permutation.
Qed.

(** C9.  With the ceiling that the script hands to the gate and all tasks
    queued at once: in every state the gate can reach, the number of tasks
    in flight is at most the ceiling; a task is started only from a state
    with fewer tasks in flight than the ceiling; and after the completion
    of any task, a queued task, if there is one, can be started.  No task
    is lost or run twice, and the gate is never stuck while tasks remain. *)
Theorem gate_respects_ceiling (config : Config) (ceiling : Ceiling) (g : Gate) :
  pLimit (concurrencyOption config) = Normal ceiling ->
  gateReach ceiling (gateInit (length (tasksOf config))) g ->
  withinCeiling ceiling (length (inFlight g))
  /\ (forall t g', gateStep ceiling g (Started t) g' ->
        hasRoom ceiling (length (inFlight g))
        /\ withinCeiling ceiling (length (inFlight g')))
  /\ (forall t g', gateStep ceiling g (Completed t) g' ->
        queued g' <> [] ->
        exists t' g'', gateStep ceiling g' (Started t') g'')
  /\ Permutation (queued g ++ inFlight g ++ settled g) (seq 0 (length (tasksOf config)))
  /\ (queued g ++ inFlight g <> [] -> exists ev g', gateStep ceiling g ev g').
Proof.
  intros Hlimit Hreach.
  destruct (gate_invariant _ _ _ Hreach) as [Hc Hp].
  split; [exact Hc|]. split; [|split; [|split; [exact Hp|]]].
  - intros t g' Hstep. split.
    + inversion Hstep; subst. cbn [inFlight]. assumption.
    + apply (gate_invariant ceiling (length (tasksOf config))).
      eapply reach_step; eassumption.
  - intros t g' Hstep Hq. inversion Hstep; subst. cbn [queued inFlight] in *.
    destruct q as [|t' q]; [contradiction|].
    exists t'. eexists. constructor.
    destruct ceiling; cbn in *; [|exact I].
    rewrite List.length_app in *. cbn [length] in Hc. lia.
  - intros Hne. destruct g as [q a d]. cbn [queued inFlight] in *.
    destruct a as [|t a].
    + destruct q as [|t q]; [contradiction|].
      exists (Started t). eexists. constructor.
      destruct ceiling as [n|]; cbn; [|exact I].
      apply pLimit_positive in Hlimit. lia.
    + exists (Completed t). eexists. apply (gate_complete ceiling t q [] a d).
Qed.

(** The sample run with three tasks in flight under the ceiling 3: the
    state is reached by five steps of the gate, the bound holds in it, and
    whichever task completes next, a queued task can then be started. *)
Lemma gate_respects_ceiling_witness :
  pLimit (concurrencyOption demoConfig) = Normal (Bounded 3)
  /\ gateReach (Bounded 3) (gateInit (length (tasksOf demoConfig))) busyGate
  /\ length (inFlight busyGate) = 3
  /\ withinCeiling (Bounded 3) (length (inFlight busyGate))
  /\ (forall t g', gateStep (Bounded 3) busyGate (Completed t) g' ->
        queued g' <> [] ->
        exists t' g'', gateStep (Bounded 3) g' (Started t') g'')
  /\ exists ev g', gateStep (Bounded 3) busyGate ev g'.
Proof.
  assert (Hreach : gateReach (Bounded 3) (gateInit (length (tasksOf demoConfig))) busyGate).
  { change (length (tasksOf demoConfig)) with 8. unfold busyGate.
    apply (reach_step _ _ {| queued := [3; 4; 5; 6; 7]; inFlight := [0; 2]; settled := [1] |}
             _ (Started 3)).
    - apply (reach_step _ _
               {| queued := [3; 4; 5; 6; 7]; inFlight := [0; 1; 2]; settled := [] |}
               _ (Completed 1)).
      + apply (reach_step _ _
                 {| queued := [2; 3; 4; 5; 6; 7]; inFlight := [0; 1]; settled := [] |}
                 _ (Started 2)).
        * apply (reach_step _ _
                   {| queued := [1; 2; 3; 4; 5; 6; 7]; inFlight := [0]; settled := [] |}
                   _ (Started 1)).
          -- apply (reach_step _ _ (gateInit 8) _ (Started 0)); [apply reach_init|].
             apply (gate_start (Bounded 3) 0 [1; 2; 3; 4; 5; 6; 7] [] []). cbn. lia.
          -- apply (gate_start (Bounded 3) 1 [2; 3; 4; 5; 6; 7] [0] []). cbn. lia.
        * apply (gate_start (Bounded 3) 2 [3; 4; 5; 6; 7] [0; 1] []). cbn. lia.
      + apply (gate_complete (Bounded 3) 1 [3; 4; 5; 6; 7] [0] [2] []).
    - apply (gate_start (Bounded 3) 3 [4; 5; 6; 7] [0; 2] [1]). cbn. lia. }
  destruct (gate_respects_ceiling demoConfig (Bounded 3) busyGate eq_refl Hreach)
    as (Hbound & _ & Hnext & _ & Hlive).
  split; [reflexivity|]. split; [exact Hreach|]. split; [reflexivity|].
  split; [exact Hbound|]. split; [exact Hnext|].
  apply Hlive. discriminate.
Defined.

(** ** Further properties and sample runs *)

Lemma exit_code_spec_witness :
  fst (exitCode demoDir demoEnv demoState) = 0%Z
  /\ exists config : Config,
       fst (loadConfig demoDir demoEnv demoState) = Normal config
       /\ noFatalError demoDir demoEnv config demoState = true
       /\ forall i, i < total config -> taskSucceeds demoDir demoEnv config demoState i.
Proof.
  assert (H : fst (exitCode demoDir demoEnv demoState) = 0%Z) by (vm_compute; reflexivity).
  split; [exact H|].
  exact (proj1 (proj1 (proj2 (exit_code_spec demoDir demoEnv demoState))) H).
Defined.

(** The hints of the sample page are inserted before the first [</head>]
    of the sample document. *)
Lemma injectHints_plain_witness :
  let resources := observe demoConfig demoResponses in
  let before := "<!DOCTYPE html><html><head><title>t</title>" in
  let after := "<body>" +:+ repeatChar "x" 1000 +:+ "</body></html>" in
  demoHtml = before +:+ "</head>" +:+ after
  /\ injectHints demoHtml (preloadHints resources)
     = before +:+ newline +:+ JsString.join newline (preloadHints resources)
       +:+ newline +:+ "  " +:+ "</head>" +:+ after.
Proof.
  cbv zeta.
  apply (injectHints_plain demoHtml
           "<!DOCTYPE html><html><head><title>t</title>"
           ("<body>" +:+ repeatChar "x" 1000 +:+ "</body></html>")
           (observe demoConfig demoResponses)).
  - vm_compute. repeat constructor.
  - vm_compute. discriminate.
  - vm_compute. reflexivity.
Defined.

(** The task list is the full cross-product of routes, locales and themes:
    it has as many entries as the product of the three lengths, and a task
    is in it exactly when its route, locale and theme are configured. *)
Theorem task_list_is_cross_product (config : Config) :
  length (tasksOf config)
  = length (routes config) * length (locales config) * length (themes config)
  /\ forall r l t : string,
       In {| task_route := r; task_locale := l; task_theme := t |} (tasksOf config)
       <-> inTaskSpace config r l t.
Proof.
  split; [apply tasksOf_length|].
  intros r l t. unfold tasksOf, inTaskSpace. rewrite in_flat_map. split.
  - intros (r' & Hr & H). apply in_flat_map in H as (l' & Hl & H).
    apply in_map_iff in H as (t' & E & Ht). injection E as -> -> ->. auto.
  - intros (Hr & Hl & Ht). exists r. split; [exact Hr|].
    apply in_flat_map. exists l. split; [exact Hl|].
    apply in_map_iff. exists t. auto.
Qed.

(** The example of the specification: routes [/] and [/about], locales
    [tr] (default) and [en], themes [light] (default) and [dark] give eight
    output files, all different. *)
Theorem end_to_end_example :
  map (fun task =>
         outputPath demoDir demoConfig (task_route task) (task_locale task)
           (task_theme task))
      (tasksOf demoConfig)
  = map (fun name => DIST_DIR demoDir +:+ "/" +:+ name)
      ["index.html"; "index.dark.html"; "index.en.html"; "index.dark.en.html";
       "about/index.html"; "about/index.dark.html"; "about/index.en.html";
       "about/index.dark.en.html"]
  /\ forall name,
       In name ["index.html"; "index.dark.html"; "index.en.html"; "index.dark.en.html";
                "about/index.html"; "about/index.dark.html"; "about/index.en.html";
                "about/index.dark.en.html"] ->
       is_Some (files (snd (exitCode demoDir demoEnv demoState))
                !! (DIST_DIR demoDir +:+ "/" +:+ name)).
Proof.
  split; [vm_compute; reflexivity|].
  intros name H. cbn [In] in H.
  repeat (destruct H as [<-|H]; [vm_compute; eauto|]). contradiction.
Qed.

(** ** Depth and trailing slashes *)

Lemma depth_app (a b : string) : depth (a +:+ String "/" b) = depth a + depth b.
Proof.
  unfold depth. rewrite split_app, List.filter_app, List.length_app. reflexivity.
Qed.

(** A slash added at the end of a route changes neither its depth nor, for
    a route other than the empty one and the root, its sitemap priority and
    change frequency; and the depth of two paths glued with a slash is the
    sum of their depths, so repeated slashes do not count. *)
Theorem trailing_slash_keeps_sitemap_values (route : string) :
  route <> "" -> route <> "/" ->
  depth (route +:+ "/") = depth route
  /\ calculatePriority (route +:+ "/") = calculatePriority route
  /\ calculateChangeFreq (route +:+ "/") = calculateChangeFreq route
  /\ forall a b : string, depth (a +:+ "/" +:+ b) = depth a + depth b.
Proof.
  intros Hne Hroot.
  assert (Hd : depth (route +:+ "/") = depth route).
  { change "/" with (String "/" ""). rewrite depth_app. cbn. lia. }
  assert (Hs : String.eqb (route +:+ "/") "/" = false).
  { apply String.eqb_neq. intros E. destruct route as [|c r]; [contradiction|].
    rewrite sapp_cons in E. injection E as _ E.
    destruct r; [discriminate|rewrite sapp_cons in E; discriminate]. }
  apply String.eqb_neq in Hroot.
  unfold calculatePriority, calculateChangeFreq. rewrite Hs, Hroot, Hd.
  repeat split. intros a b. apply (depth_app a b).
Qed.

Lemma trailing_slash_keeps_sitemap_values_witness :
  "/about" <> "" /\ "/about" <> "/"
  /\ calculatePriority ("/about" +:+ "/") = calculatePriority "/about".
Proof.
  split; [discriminate|]. split; [discriminate|].
  apply (trailing_slash_keeps_sitemap_values "/about"); discriminate.
Defined.

(** ** The production URL and its trailing slash *)

Lemma stripTrailingSlash_cons (c : ascii) (s : string) :
  s <> "" ->
  JsString.stripTrailingSlash (String c s) = String c (JsString.stripTrailingSlash s).
Proof. destruct s; [contradiction|reflexivity]. Qed.

Lemma stripTrailingSlash_slash (u : string) :
  JsString.stripTrailingSlash (u +:+ "/") = u.
Proof.
  induction u as [|c u IH]; [reflexivity|].
  rewrite sapp_cons, stripTrailingSlash_cons, IH; [reflexivity|].
  intros E. apply sapp_eq_empty in E as [_ E]. discriminate.
Qed.

Lemma stripTrailingSlash_none (u : string) :
  JsString.endsWith u "/" = false -> JsString.stripTrailingSlash u = u.
Proof.
  induction u as [|c u IH]; [reflexivity|].
  rewrite endsWith_cons. intros [H1 H2]%orb_false_iff.
  destruct u as [|d u].
  - cbn [JsString.stripTrailingSlash]. destruct (Ascii.eqb c "/") eqn:Hc; [|reflexivity].
    apply ascii_eqb_true in Hc. subst. discriminate.
  - rewrite stripTrailingSlash_cons by discriminate. rewrite (IH H2). reflexivity.
Qed.

(** One slash at the end of the production URL makes no difference to the
    sitemap and to [robots.txt]: for a URL [u] that does not end in a slash,
    the configuration with [u] and the one with [u/] give the same sitemap
    entries and text, and [generateSitemap] and [generateRobotsTxt] act in
    the same way. *)
Theorem production_url_trailing_slash (dir : string) (env : Env) (config : Config)
    (u : string) :
  JsString.endsWith u "/" = false ->
  sitemapUrls env (withProductionUrl config (u +:+ "/"))
  = sitemapUrls env (withProductionUrl config u)
  /\ sitemapText env (withProductionUrl config (u +:+ "/"))
     = sitemapText env (withProductionUrl config u)
  /\ (forall st, generateSitemap dir env (withProductionUrl config (u +:+ "/")) st
                 = generateSitemap dir env (withProductionUrl config u) st)
  /\ (forall st, generateRobotsTxt dir (withProductionUrl config (u +:+ "/")) st
                 = generateRobotsTxt dir (withProductionUrl config u) st).
Proof.
  intros Hu.
  assert (Hurls : sitemapUrls env (withProductionUrl config (u +:+ "/"))
                  = sitemapUrls env (withProductionUrl config u)).
  { unfold sitemapUrls, excludedOf. cbn [production_url routes exclude_from_sitemap withProductionUrl].
    rewrite stripTrailingSlash_slash, (stripTrailingSlash_none u Hu). reflexivity. }
  assert (Htext : sitemapText env (withProductionUrl config (u +:+ "/"))
                  = sitemapText env (withProductionUrl config u)).
  { unfold sitemapText. rewrite Hurls. reflexivity. }
  split; [exact Hurls|]. split; [exact Htext|]. split.
  - intros st. unfold generateSitemap. rewrite Htext. reflexivity.
  - intros st. unfold generateRobotsTxt. cbn [production_url withProductionUrl].
    rewrite stripTrailingSlash_slash, (stripTrailingSlash_none u Hu). reflexivity.
Qed.

Lemma production_url_trailing_slash_witness :
  JsString.endsWith "https://example.com" "/" = false
  /\ sitemapText demoEnv (withProductionUrl demoConfig ("https://example.com" +:+ "/"))
     = sitemapText demoEnv (withProductionUrl demoConfig "https://example.com").
Proof.
  split; [reflexivity|].
  apply (production_url_trailing_slash demoDir demoEnv demoConfig "https://example.com").
  reflexivity.
Defined.

(** ** The response observer *)

Lemma setAdd_In (x y : string) (set : list string) :
  In y (setAdd x set) <-> y = x \/ In y set.
Proof.
  unfold setAdd. destruct (existsb (String.eqb x) set) eqn:E.
  - split; [auto|]. intros [->|H]; [|exact H].
    apply existsb_exists in E as (z & Hz & Ez). apply String.eqb_eq in Ez. subst. exact Hz.
  - rewrite in_app_iff. cbn [In]. intuition.
Qed.

Lemma setAdd_NoDup (x : string) (set : list string) :
  List.NoDup set -> List.NoDup (setAdd x set).
Proof.
  intros H. unfold setAdd. destruct (existsb (String.eqb x) set) eqn:E; [exact H|].
  apply NoDup_rev in H. rewrite <- (rev_involutive (set ++ [x])), rev_app_distr.
  apply NoDup_rev. cbn [rev app]. constructor; [|exact H].
  rewrite <- in_rev. intros Hin.
  assert (existsb (String.eqb x) set = true); [|congruence].
  apply existsb_exists. exists x. split; [exact Hin|apply String.eqb_refl].
Qed.

Lemma onResponse_cases (config : Config) (resources : Resources) (response : Response) :
  onResponse config resources response
  = if isStylesheet response then
      {| css := setAdd (relativePath config response) (css resources);
         js := js resources |}
    else if isScriptChunk config response then
      {| css := css resources;
         js := setAdd (relativePath config response) (js resources) |}
    else resources.
Proof.
  unfold onResponse, isStylesheet, isScriptChunk, relativePath.
  destruct (ok response); cbn [negb orb andb]; [|reflexivity].
  destruct (JsString.includes (url response) "/assets/"); cbn [negb orb andb];
    [|reflexivity].
  destruct (JsString.endsWith (url response) ".css"); cbn [negb andb]; [reflexivity|].
  destruct (JsString.endsWith (url response) ".js"); reflexivity.
Qed.

Lemma observe_from (config : Config) (seen : list Response) (start : Resources) :
  let final := fold_left (onResponse config) seen start in
  (List.NoDup (css start) -> List.NoDup (css final))
  /\ (List.NoDup (js start) -> List.NoDup (js final))
  /\ (forall p, In p (css final)
                <-> In p (css start)
                    \/ exists r, In r seen /\ isStylesheet r = true
                                 /\ p = relativePath config r)
  /\ (forall p, In p (js final)
                <-> In p (js start)
                    \/ exists r, In r seen /\ isScriptChunk config r = true
                                 /\ p = relativePath config r).
Proof.
  revert start. induction seen as [|r seen IH]; intros start; cbn [fold_left].
  - cbv zeta. repeat split; auto.
    + intros [H|(r & [] & _)]. exact H.
    + intros [H|(r & [] & _)]. exact H.
  - specialize (IH (onResponse config start r)). cbv zeta in IH |- *.
    destruct IH as (Hc & Hj & Hcs & Hjs).
    assert (Hex : isStylesheet r = true -> isScriptChunk config r = false).
    { unfold isStylesheet, isScriptChunk. intros [_ H]%andb_true_iff. rewrite H.
      cbn. rewrite !andb_false_r. reflexivity. }
    assert (Ecss : css (onResponse config start r)
                   = if isStylesheet r then setAdd (relativePath config r) (css start)
                     else css start).
    { rewrite onResponse_cases. destruct (isStylesheet r); [reflexivity|].
      destruct (isScriptChunk config r); reflexivity. }
    assert (Ejs : js (onResponse config start r)
                  = if isScriptChunk config r then setAdd (relativePath config r) (js start)
                    else js start).
    { rewrite onResponse_cases. destruct (isStylesheet r) eqn:Es.
      - rewrite (Hex eq_refl). reflexivity.
      - destruct (isScriptChunk config r); reflexivity. }
    rewrite Ecss in Hc, Hcs. rewrite Ejs in Hj, Hjs.
    split; [|split; [|split]].
    + intros H. apply Hc. destruct (isStylesheet r); [apply setAdd_NoDup|]; exact H.
    + intros H. apply Hj. destruct (isScriptChunk config r); [apply setAdd_NoDup|]; exact H.
    + intros p. rewrite Hcs. cbn [In]. destruct (isStylesheet r) eqn:Es.
      * rewrite setAdd_In. split.
        -- intros [[->|H]|(r' & Hin & Hs & E)]; eauto 8.
        -- intros [H|(r' & [<-|Hin] & Hs & E)]; eauto 8.
      * split.
        -- intros [H|(r' & Hin & Hs & E)]; eauto 8.
        -- intros [H|(r' & [<-|Hin] & Hs & E)]; [auto|congruence|eauto 8].
    + intros p. rewrite Hjs. cbn [In]. destruct (isScriptChunk config r) eqn:Ej.
      * rewrite setAdd_In. split.
        -- intros [[->|H]|(r' & Hin & Hs & E)]; eauto 8.
        -- intros [H|(r' & [<-|Hin] & Hs & E)]; eauto 8.
      * split.
        -- intros [H|(r' & Hin & Hs & E)]; eauto 8.
        -- intros [H|(r' & [<-|Hin] & Hs & E)]; [auto|congruence|eauto 8].
Qed.

(** The two resource sets the observer builds hold no path twice; a path is
    in the stylesheet set exactly when it is the recorded path of a seen
    response that succeeded, has [/assets/] in its URL and ends in [.css];
    it is in the script set exactly when it is the recorded path of a seen
    response that succeeded, has [/assets/] in its URL, ends in [.js] and
    not in [.css], and whose recorded path does not hold [/assets/index-].
    A failed response, or one outside [/assets/], adds nothing. *)
Theorem observed_resources (config : Config) (seen : list Response) :
  let resources := observe config seen in
  List.NoDup (css resources)
  /\ List.NoDup (js resources)
  /\ (forall p, In p (css resources)
                <-> exists r, In r seen /\ isStylesheet r = true
                              /\ p = relativePath config r)
  /\ (forall p, In p (js resources)
                <-> exists r, In r seen /\ isScriptChunk config r = true
                              /\ p = relativePath config r)
  /\ (forall r, ok r = false \/ JsString.includes (url r) "/assets/" = false ->
                observe config (seen ++ [r]) = observe config seen).
Proof.
  cbv zeta. unfold observe.
  destruct (observe_from config seen {| css := []; js := [] |}) as (Hc & Hj & Hcs & Hjs).
  cbv zeta in *. cbn [css js In] in *.
  split; [apply Hc; constructor|]. split; [apply Hj; constructor|].
  split; [|split].
  - intros p. rewrite Hcs. intuition.
  - intros p. rewrite Hjs. intuition.
  - intros r H. rewrite fold_left_app. cbn [fold_left]. unfold onResponse.
    destruct H as [-> | ->]; [reflexivity|]. rewrite orb_true_r. reflexivity.
Qed.
(** ** What a render task leaves behind *)


(** A route three levels deep: the three missing directories are made. *)
Example prerenderRoute_deep_route :
  fst (prerenderRoute demoDir demoEnv (demoPage demoHtml []) "/a/b/c" "tr" "light"
         demoConfig demoState) = Normal true
  /\ forallb (fun d =>
                bool_decide
                  (d ∈ dirs (snd (prerenderRoute demoDir demoEnv (demoPage demoHtml [])
                                    "/a/b/c" "tr" "light" demoConfig demoState))))
       ["/repo/dist"; "/repo/dist/a"; "/repo/dist/a/b"; "/repo/dist/a/b/c"] = true.
Proof. split; vm_compute; reflexivity. Qed.

(** A file in the place of the output directory, and a file that the
    operating system does not let the script write: the task fails, and
    with it the run. *)
Example prerenderRoute_write_fails :
  fst (prerenderRoute demoDir demoEnv (demoPage demoHtml []) "/blocked" "tr" "light"
         demoConfig blockedState) = Normal false
  /\ fst (prerenderRoute demoDir demoEnv (demoPage demoHtml []) "/" "tr" "light"
            demoConfig deniedState) = Normal false
  /\ taskCompletions demoDir demoEnv demoConfig deniedState
     = Normal false :: repeat (Normal true) 7
  /\ fst (exitCode demoDir demoEnv deniedState) = 1%Z.
Proof. repeat split; vm_compute; reflexivity. Qed.

(** ** The success count *)










(** ** The preview server is stopped on every path *)

Lemma keeps_ret {A : Type} (a : A) : keepsServer (mret a).
Proof. intros st. split; reflexivity. Qed.

Lemma keeps_throw {A : Type} (e : JsError) : keepsServer (@throw A e).
Proof. intros st. split; reflexivity. Qed.

Lemma keeps_bind {A B : Type} (m : M A) (k : A -> M B) :
  keepsServer m -> (forall a, keepsServer (k a)) -> keepsServer (m ≫= k).
Proof.
  intros Hm Hk st. unfold mbind, M_bind, bind. specialize (Hm st).
  destruct (m st) as [[a|e] st1]; cbn [snd] in *; [|exact Hm].
  destruct (Hk a st1) as [H1 H2]. destruct Hm as [H3 H4]. split; congruence.
Qed.

Lemma keeps_tryCatch {A : Type} (m : M A) (h : JsError -> M A) :
  keepsServer m -> (forall e, keepsServer (h e)) -> keepsServer (tryCatch m h).
Proof.
  intros Hm Hh st. unfold tryCatch. specialize (Hm st).
  destruct (m st) as [[a|e] st1]; cbn [snd] in *; [exact Hm|].
  destruct (Hh e st1) as [H1 H2]. destruct Hm as [H3 H4]. split; congruence.
Qed.

Lemma keeps_tryFinally {A : Type} (m : M A) (cleanup : M unit) :
  keepsServer m -> keepsServer cleanup -> keepsServer (tryFinally m cleanup).
Proof.
  intros Hm Hf st. unfold tryFinally. specialize (Hm st).
  destruct (m st) as [c st1]. specialize (Hf st1).
  destruct (cleanup st1) as [[[]|e] st2]; cbn [snd] in *;
    destruct Hm, Hf; split; congruence.
Qed.

Lemma keeps_print (stream : Stream) (line : string) : keepsServer (print stream line).
Proof. intros st. split; reflexivity. Qed.

Lemma keeps_await (outcome : option JsError) : keepsServer (await outcome).
Proof. intros st. destruct outcome; split; reflexivity. Qed.

Lemma keeps_awaitValue {A : Type} (outcome : Completion A) :
  keepsServer (awaitValue outcome).
Proof. intros st. destruct outcome; split; reflexivity. Qed.

Lemma keeps_readFileSync (p : string) : keepsServer (readFileSync p).
Proof. intros st. unfold readFileSync. destruct (files st !! p); split; reflexivity. Qed.

Lemma keeps_writeFileSync (p data : string) : keepsServer (writeFileSync p data).
Proof.
  intros st. destruct (writeFileSync_effect p data st) as [[e E]|[E _]]; rewrite E;
    split; reflexivity.
Qed.

Lemma keeps_existsSync (p : string) : keepsServer (existsSync p).
Proof. intros st. split; reflexivity. Qed.

Lemma keeps_mkdirSync (p : string) : keepsServer (mkdirSync p).
Proof.
  intros st. destruct (mkdirSync_effect p st) as (c & dirs' & E & _). rewrite E.
  split; reflexivity.
Qed.

(** Proves [keepsServer] of code built from the operations above. *)
Ltac keeps :=
  repeat first
    [ apply keeps_ret | apply keeps_throw | apply keeps_print
    | apply keeps_await | apply keeps_awaitValue | apply keeps_readFileSync
    | apply keeps_writeFileSync | apply keeps_existsSync | apply keeps_mkdirSync
    | apply keeps_bind; [|intros ?] | apply keeps_tryCatch; [|intros ?]
    | apply keeps_tryFinally
    | match goal with |- keepsServer (if ?b then _ else _) => destruct b end
    | match goal with |- keepsServer (match ?x with _ => _ end) => destruct x end
    | assumption ].

Lemma keeps_promiseAll {A : Type} (ms : list (M A)) :
  Forall keepsServer ms -> keepsServer (promiseAll ms).
Proof.
  induction 1 as [|m ms Hm _ IH]; cbn [promiseAll]; keeps.
Qed.

Lemma keeps_imap {A B : Type} (f : nat -> A -> M B) (l : list A) :
  (forall i x, keepsServer (f i x)) -> Forall keepsServer (imap f l).
Proof.
  revert f. induction l as [|x l IH]; intros f H; cbn [imap]; constructor.
  - apply H.
  - apply IH. intros i y. apply H.
Qed.

Lemma keeps_prerenderAll (dir : string) (env : Env) (config : Config) :
  keepsServer (prerenderAll dir env config).
Proof.
  unfold prerenderAll, log_info. keeps.
  apply keeps_promiseAll, keeps_imap. intros i task. unfold renderTask. keeps.
Qed.

Lemma keeps_artifacts (dir : string) (env : Env) (config : Config) :
  keepsServer (buildWorker dir config)
  /\ keepsServer (generateSitemap dir env config)
  /\ keepsServer (generateRobotsTxt dir config).
Proof.
  unfold buildWorker, generateSitemap, generateRobotsTxt, log_info. repeat split; keeps.
Qed.

Lemma keeps_startPreviewServer (env : Env) (config : Config) :
  keepsServer (startPreviewServer env config).
Proof. unfold startPreviewServer, log_info. keeps. Qed.

Lemma run_keeps {A : Type} (m : M A) (st : State) :
  keepsServer m ->
  exists c st', m st = (c, st')
                /\ signals st' = signals st /\ serverProcess st' = serverProcess st.
Proof.
  intros H. specialize (H st). destruct (m st) as [c st']. exists c, st'. auto.
Qed.

Lemma bind_step {A B : Type} (m : M A) (k : A -> M B) (a : A) (st : State) :
  yields m (Normal a) -> keepsServer m ->
  exists st1, (m ≫= k) st = k a st1
              /\ signals st1 = signals st /\ serverProcess st1 = serverProcess st.
Proof.
  intros Hy Hk. destruct (Hy st) as [st1 E]. specialize (Hk st). rewrite E in Hk.
  exists st1. split; [apply bind_at; exact E|exact Hk].
Qed.

Lemma bind_step_throw {A B : Type} (m : M A) (k : A -> M B) (e : JsError) (st : State) :
  yields m (Throw e) -> keepsServer m ->
  exists st1, (m ≫= k) st = (Throw e, st1)
              /\ signals st1 = signals st /\ serverProcess st1 = serverProcess st.
Proof.
  intros Hy Hk. destruct (Hy st) as [st1 E]. specialize (Hk st). rewrite E in Hk.
  exists st1. split; [apply bind_throw_at; exact E|exact Hk].
Qed.

Lemma main_body_server (dir : string) (env : Env) (st : State) :
  exists c st3,
    tryCatch
      (config ← loadConfig dir env;
       log_info ("Config: " +:+ pretty (length (routes config)) +:+ " routes");;
       distExists ← existsSync (DIST_DIR dir);
       if negb distExists then
         log_error "dist/ not found. Run npm run build first";;
         mret false
       else
         tryCatch (buildWorker dir config)
           (fun error =>
              log_warning ("Failed to build _worker.js: " +:+ err_message error));;
         tryCatch (generateSitemap dir env config;; generateRobotsTxt dir config)
           (fun error =>
              log_warning ("Failed to generate sitemap/robots.txt: "
                           +:+ err_message error));;
         server ← startPreviewServer env config;
         setServerProcess (Some server);;
         successCount ← prerenderAll dir env config;
         log_info ("Complete: " +:+ pretty successCount +:+ "/" +:+ pretty (total config)
                   +:+ " successful (" +:+ pretty (length (routes config))
                   +:+ " routes × " +:+ pretty (length (locales config))
                   +:+ " locales × " +:+ pretty (length (themes config))
                   +:+ " themes)");;
         mret (Nat.eqb successCount (total config)))
      (fun error =>
         (if bool_decide (err_code error = Some "ENOENT") then
            log_error ("File not found: "
                       +:+ match err_path error with
                           | Some file => file
                           | None => "undefined"
                           end)
          else log_error ("Fatal error: " +:+ err_message error));;
         mret false)
      st
    = (c, st3)
    /\ signals st3 = signals st
    /\ serverProcess st3
       = match startedServer dir env st with
         | Some started => Some {| pid := started; killed := false |}
         | None => serverProcess st
         end.
Proof.
  match goal with
  | |- context [tryCatch ?body ?h st] =>
      assert (Hh : forall e, keepsServer (h e))
  end.
  { intros e. cbv beta. unfold log_error. keeps. }
  assert (Hfin : forall (c : Completion bool) (s : State) (sp : option ServerProcess),
             signals s = signals st -> serverProcess s = sp ->
             exists c' st3,
               match c with
               | Normal a => (Normal a, s)
               | Throw e =>
                   ((if bool_decide (err_code e = Some "ENOENT") then
                       log_error ("File not found: "
                                  +:+ match err_path e with
                                      | Some file => file
                                      | None => "undefined"
                                      end)
                     else log_error ("Fatal error: " +:+ err_message e));;
                    mret false) s
               end = (c', st3)
               /\ signals st3 = signals st /\ serverProcess st3 = sp).
  { intros c s sp Hs Hp. destruct c as [a|e]; [eauto|].
    destruct (run_keeps _ s (Hh e)) as (c' & st3 & E & H1 & H2).
    exists c', st3. cbv beta in E. rewrite E. split; [reflexivity|]. split; congruence. }
  unfold startedServer. rewrite loadConfig_run. cbn [fst]. unfold existsSync at 2. cbn [fst].
  unfold tryCatch at 1.
  destruct (loadOutcome dir env (files st)) as [config|e] eqn:El.
  2:{ erewrite bind_throw_at by (rewrite loadConfig_run, El; reflexivity).
      apply (Hfin (Throw e)); reflexivity. }
  erewrite bind_at by (rewrite loadConfig_run, El; reflexivity).
  erewrite bind_at by reflexivity. erewrite bind_at by reflexivity.
  cbn [files dirs refused console signals serverProcess].
  destruct (bool_decide (DIST_DIR dir ∈ dirs st)
            || bool_decide (is_Some (files st !! DIST_DIR dir))); cbn [negb].
  2:{ erewrite bind_at by reflexivity. cbn [mret M_ret ret]. apply (Hfin (Normal false)); reflexivity. }
  match goal with
  | |- context [(tryCatch (buildWorker dir config) ?h1 ≫= ?k) ?s] =>
      assert (Y1 : yields (tryCatch (buildWorker dir config) h1) (Normal tt))
        by (apply yields_caught_unit; intros e; apply yields_log_warning);
      assert (K1 : keepsServer (tryCatch (buildWorker dir config) h1))
        by (apply keeps_tryCatch;
            [apply (proj1 (keeps_artifacts dir env config))|intros e; apply keeps_print]);
      destruct (bind_step _ k tt s Y1 K1) as (s1 & E1 & S1 & P1);
      rewrite E1; cbv beta; clear E1 Y1 K1
  end.
  match goal with
  | |- context [(tryCatch ?m ?h2 ≫= ?k) s1] =>
      assert (Y2 : yields (tryCatch m h2) (Normal tt))
        by (apply yields_caught_unit; intros e; apply yields_log_warning);
      assert (K2 : keepsServer (tryCatch m h2))
        by (apply keeps_tryCatch;
            [apply keeps_bind;
             [apply (proj1 (proj2 (keeps_artifacts dir env config)))
             |intros _; apply (proj2 (proj2 (keeps_artifacts dir env config)))]
            |intros e; apply keeps_print]);
      destruct (bind_step _ k tt s1 Y2 K2) as (s2 & E2 & S2 & P2);
      rewrite E2; cbv beta; clear E2 Y2 K2
  end.
  cbn [signals serverProcess] in S1, P1.
  pose proof (startPreviewServer_yields env config) as Hs.
  pose proof (keeps_startPreviewServer env config) as Hk.
  destruct (serverStart env) as [started|e].
  - match goal with
    | |- context [(startPreviewServer env config ≫= ?k) s2] =>
        destruct (bind_step _ k _ s2 Hs Hk) as (s3 & E3 & S3 & P3); rewrite E3; cbv beta
    end.
    erewrite bind_at by reflexivity.
    match goal with
    | |- context [(prerenderAll dir env config ≫= ?k) ?s] =>
        assert (K4 : keepsServer (prerenderAll dir env config ≫= k))
          by (apply keeps_bind; [apply keeps_prerenderAll|intros n; unfold log_info; keeps]);
        destruct (run_keeps _ s K4) as (c & s4 & E4 & S4 & P4); rewrite E4
    end.
    cbn [signals serverProcess] in S4, P4.
    apply (Hfin c); congruence.
  - match goal with
    | |- context [(startPreviewServer env config ≫= ?k) s2] =>
        destruct (bind_step_throw _ k _ s2 Hs Hk) as (s3 & E3 & S3 & P3); rewrite E3
    end.
    apply (Hfin (Throw e)); congruence.
Qed.

(** [main] never rejects, and it stops the preview server on every path:
    when the server was started (the configuration is loaded, the prebuilt
    output root exists and the server is presumed ready), [main] ends with
    the call of [kill] on it, whether the rendering returned or threw.  When
    [kill] delivers the terminating signal, the server has got it exactly
    once and is marked as killed; when the signal is not delivered (the
    server has exited on its own) or [kill] throws, nothing is sent and the
    server is not marked.  When the server was not started, no signal is
    sent. *)
Theorem server_stopped_on_every_path (dir : string) (env : Env) (st : State) :
  let final := snd (exitCode dir env st) in
  (exists success : bool, fst (main dir env st) = Normal success)
  /\ match startedServer dir env st with
     | Some started =>
         match killOutcome env with
         | Delivered =>
             signals final = signals st ++ ["SIGTERM"]
             /\ serverProcess final = Some {| pid := started; killed := true |}
         | NotDelivered | KillThrows _ =>
             signals final = signals st
             /\ serverProcess final = Some {| pid := started; killed := false |}
         end
     | None => signals final = signals st /\ serverProcess final = None
     end.
Proof.
  cbv zeta. destruct (main_run dir env st) as [st' Em].
  split; [rewrite Em; eauto|].
  unfold exitCode. rewrite Em. cbn [snd].
  unfold main in Em.
  erewrite bind_at in Em by reflexivity. erewrite bind_at in Em by reflexivity.
  cbn [files dirs refused console signals serverProcess] in Em.
  match type of Em with
  | tryFinally _ _ ?s = _ => set (st2 := s) in Em
  end.
  destruct (main_body_server dir env st2) as (c & st3 & E & S3 & P3).
  unfold tryFinally in Em. rewrite E in Em.
  assert (Hs : startedServer dir env st2 = startedServer dir env st).
  { unfold startedServer. rewrite !loadConfig_run. reflexivity. }
  rewrite Hs in P3. change (signals st2) with (signals st) in S3.
  change (serverProcess st2) with (@None ServerProcess) in P3.
  unfold mbind, M_bind, bind, getServerProcess in Em. rewrite P3 in Em.
  destruct (startedServer dir env st) as [started|].
  - unfold stopPreviewServer in Em. cbn [killed negb] in Em.
    unfold mbind, M_bind, bind, log_info, log_warning, print, tryCatch, sendSignal,
      mret, M_ret, ret, throw in Em.
    cbn [files dirs refused console signals serverProcess] in Em.
    destruct (killOutcome env) as [| |e];
      cbn [files dirs refused console signals serverProcess] in Em;
      injection Em as _ <-; cbn [signals serverProcess]; rewrite ?S3, ?P3; split; reflexivity.
  - cbn in Em. injection Em as _ <-. split; assumption.
Qed.

Lemma server_stopped_on_every_path_witness :
  startedServer demoDir demoEnv demoState = Some 4242
  /\ killOutcome demoEnv = Delivered
  /\ signals (snd (exitCode demoDir demoEnv demoState)) = signals demoState ++ ["SIGTERM"].
Proof.
  assert (Hs : startedServer demoDir demoEnv demoState = Some 4242)
    by (vm_compute; reflexivity).
  split; [exact Hs|]. split; [reflexivity|].
  pose proof (server_stopped_on_every_path demoDir demoEnv demoState) as H.
  cbv zeta in H. destruct H as [_ H]. rewrite Hs in H. exact (proj1 H).
Defined.

(** ** Output files lie under the output root *)

Lemma join_app (sep : string) (a b : list string) :
  a <> [] -> b <> [] ->
  JsString.join sep (a ++ b) = JsString.join sep a +:+ sep +:+ JsString.join sep b.
Proof.
  intros Ha Hb. induction a as [|x a IH]; [contradiction|].
  destruct a as [|y a].
  - destruct b as [|z b]; [contradiction|]. reflexivity.
  - change ((x :: y :: a) ++ b) with (x :: (y :: a) ++ b).
    change ((y :: a) ++ b) with (y :: (a ++ b)) at 1.
    rewrite join_cons. change (y :: a ++ b) with ((y :: a) ++ b).
    rewrite IH by discriminate. rewrite join_cons, !sapp_assoc. reflexivity.
Qed.

Lemma plainSegment_intro (seg : string) :
  String.eqb seg "" || String.eqb seg "." = false -> String.eqb seg ".." = false ->
  plainSegment seg = true.
Proof.
  intros [H1 H2]%orb_false_iff H3. unfold plainSegment. rewrite H1, H2, H3. reflexivity.
Qed.

Lemma normalizeSegments_rooted (segs stack : list string) :
  Forall (fun seg => plainSegment seg = true) stack ->
  Forall (fun seg => plainSegment seg = true) (Path.normalizeSegments false segs stack).
Proof.
  revert stack. induction segs as [|seg segs IH]; intros stack H; cbn [Path.normalizeSegments].
  - apply Forall_rev. exact H.
  - destruct (String.eqb seg "" || String.eqb seg ".") eqn:E1; [apply IH; exact H|].
    destruct (String.eqb seg "..") eqn:E2.
    + destruct stack as [|top below]; [apply IH; constructor|].
      inversion H; subst. destruct (String.eqb top ".."); apply IH; assumption.
    + apply IH. constructor; [apply plainSegment_intro; assumption|exact H].
Qed.

Lemma plain_not_empty (l : list string) :
  l <> [] -> Forall (fun seg => plainSegment seg = true) l -> JsString.join "/" l <> "".
Proof.
  intros Hne H E. apply join_eq_empty in E. destruct l as [|x l]; [contradiction|].
  inversion H; subst. inversion E; subst. discriminate.
Qed.

(** The segments [path.join] keeps of a normalized absolute path are its
    own. *)
Lemma keptOf_rooted (K : list string) :
  Forall (fun seg => plainSegment seg = true) K ->
  Forall (fun seg => JsString.lacks "/" seg = true) K ->
  keptOf (rootedPath K) = K /\ rootOf (rootedPath K) = "/" /\ rootedPath K <> "".
Proof.
  intros Hp Hl. unfold rootedPath, keptOf, rootOf.
  assert (Hs : JsString.startsWith ("/" +:+ JsString.join "/" K) "/" = true).
  { change ("/" +:+ JsString.join "/" K) with (String "/" (JsString.join "/" K)).
    apply startsWith_one. }
  rewrite Hs. cbn [negb]. split; [|split; [reflexivity|discriminate]].
  change ("/" +:+ JsString.join "/" K) with ("" +:+ String "/" (JsString.join "/" K)).
  rewrite split_app. cbn [JsString.split app Path.normalizeSegments String.eqb orb].
  destruct K as [|x K]; [reflexivity|].
  rewrite split_join by (assumption || discriminate).
  rewrite normalizeSegments_plain by assumption. reflexivity.
Qed.

Lemma join_rooted (K segs : list string) :
  Forall (fun seg => plainSegment seg = true) K ->
  Forall (fun seg => JsString.lacks "/" seg = true) K ->
  segs <> [] ->
  Forall (fun seg => plainSegment seg = true) segs ->
  Forall (fun seg => JsString.lacks "/" seg = true) segs ->
  Path.join [rootedPath K; JsString.join "/" segs] = rootedPath (K ++ segs).
Proof.
  intros Hp Hl Hne Hps Hls.
  destruct (keptOf_rooted K Hp Hl) as (Hk & Hr & _).
  rewrite normalize_plain by assumption. rewrite Hk, Hr. reflexivity.
Qed.

Lemma rooted_app (K segs : list string) :
  K <> [] -> segs <> [] ->
  rootedPath (K ++ segs) = rootedPath K +:+ "/" +:+ JsString.join "/" segs.
Proof.
  intros HK Hs. unfold rootedPath. rewrite join_app by assumption.
  rewrite !sapp_assoc. reflexivity.
Qed.

Lemma projectRoot_rooted (dir : string) :
  JsString.startsWith dir "/" = true ->
  PROJECT_ROOT dir = (if decide (projectSegments dir = []) then "/"
                      else rootedPath (projectSegments dir))
  /\ Forall (fun seg => plainSegment seg = true) (projectSegments dir)
  /\ Forall (fun seg => JsString.lacks "/" seg = true) (projectSegments dir).
Proof.
  intros Habs.
  assert (Hp : Forall (fun seg => plainSegment seg = true) (projectSegments dir))
    by (apply normalizeSegments_rooted; constructor).
  assert (Hl : Forall (fun seg => JsString.lacks "/" seg = true) (projectSegments dir)).
  { apply normalizeSegments_lack; [|constructor].
    apply Forall_app. split; [apply split_segments_lack|repeat constructor]. }
  split; [|split; assumption].
  assert (Hd : dir <> "") by (intros ->; discriminate).
  unfold PROJECT_ROOT, Path.join. cbn [Path.joinArgs String.eqb].
  apply String.eqb_neq in Hd. rewrite Hd.
  set (joined := ((dir +:+ "/" +:+ "..") +:+ "/" +:+ "..") +:+ "/" +:+ "..").
  assert (Hsplit : JsString.split "/" joined = JsString.split "/" dir ++ [".."; ".."; ".."]).
  { unfold joined. change ("/" +:+ "..") with (String "/" "..").
    rewrite !split_app, <- !List.app_assoc. reflexivity. }
  assert (Hne : String.eqb joined "" = false).
  { apply String.eqb_neq. unfold joined. intros E.
    apply sapp_eq_empty in E as [_ E]. discriminate. }
  assert (Hab : JsString.startsWith joined "/" = true).
  { unfold joined. rewrite !sapp_assoc. apply String.eqb_neq in Hd.
    rewrite startsWith_app by exact Hd. exact Habs. }
  assert (Htr : JsString.endsWith joined "/" = false).
  { destruct (JsString.endsWith joined "/") eqn:E; [|reflexivity].
    apply endsWith_app in E as [a Ea]. rewrite Ea in Hsplit.
    rewrite split_app in Hsplit. cbn [JsString.split] in Hsplit.
    change [".."; ".."; ".."] with ([".."; ".."] ++ [".."]) in Hsplit.
    rewrite List.app_assoc in Hsplit. apply app_inj_tail in Hsplit as [_ Hsplit].
    discriminate. }
  unfold Path.normalize. rewrite Hne, Hab, Htr. cbn [negb].
  unfold Path.normalizeString. rewrite Hsplit. fold (projectSegments dir).
  destruct (decide (projectSegments dir = [])) as [E|E].
  - rewrite E. reflexivity.
  - pose proof (plain_not_empty _ E Hp) as Hn. apply String.eqb_neq in Hn. rewrite Hn.
    unfold rootedPath. rewrite sapp_nil_r. reflexivity.
Qed.

Lemma distDir_rooted (dir : string) :
  JsString.startsWith dir "/" = true ->
  DIST_DIR dir = rootedPath (projectSegments dir ++ ["dist"]).
Proof.
  intros Habs. destruct (projectRoot_rooted dir Habs) as (Hroot & Hp & Hl).
  unfold DIST_DIR. rewrite Hroot.
  destruct (decide (projectSegments dir = [])) as [E|E].
  - rewrite E. reflexivity.
  - change "dist" with (JsString.join "/" ["dist"]).
    apply join_rooted; try assumption; try discriminate; repeat constructor.
Qed.

Lemma endsWith_complete (a p : string) : JsString.endsWith (a +:+ p) p = true.
Proof.
  induction a as [|c a IH].
  - rewrite sapp_nil_l. destruct p; [reflexivity|].
    rewrite endsWith_cons, String.eqb_refl. reflexivity.
  - rewrite sapp_cons, endsWith_cons, IH. apply orb_true_r.
Qed.

(** When the script is installed under an absolute path, the output root
    is the [dist] directory three levels above the script's directory, and
    the output file of a task with a canonical route and plain codes is the
    output root, a slash, and the name [prerenderRoute] composes, with
    nothing normalized away.  Such a file is never the sitemap, [robots.txt]
    or the edge-routing script. *)
Theorem output_files_under_root (dir : string) (config : Config) (r l t : string) :
  JsString.startsWith dir "/" = true ->
  canonicalRoute r = true -> plainCode l = true -> plainCode t = true ->
  DIST_DIR dir = rootedPath (projectSegments dir ++ ["dist"])
  /\ outputPath dir config r l t = DIST_DIR dir +:+ "/" +:+ outputName config r l t
  /\ forall artifact : string,
       In artifact ["sitemap.xml"; "robots.txt"; "_worker.js"] ->
       Path.join [DIST_DIR dir; artifact] = DIST_DIR dir +:+ "/" +:+ artifact
       /\ outputPath dir config r l t <> Path.join [DIST_DIR dir; artifact].
Proof.
  intros Habs Hr Hl Ht.
  destruct (projectRoot_rooted dir Habs) as (_ & Hp & Hs).
  pose proof (distDir_rooted dir Habs) as Hd.
  assert (HK : Forall (fun seg => plainSegment seg = true) (projectSegments dir ++ ["dist"]))
    by (apply Forall_app; split; [exact Hp|repeat constructor]).
  assert (HL : Forall (fun seg => JsString.lacks "/" seg = true)
                 (projectSegments dir ++ ["dist"]))
    by (apply Forall_app; split; [exact Hs|repeat constructor]).
  assert (HKne : projectSegments dir ++ ["dist"] <> [])
    by (intros E; apply app_eq_nil in E as [_ E]; discriminate).
  assert (Hunder : forall segs,
             segs <> [] ->
             Forall (fun seg => plainSegment seg = true) segs ->
             Forall (fun seg => JsString.lacks "/" seg = true) segs ->
             Path.join [DIST_DIR dir; JsString.join "/" segs]
             = DIST_DIR dir +:+ "/" +:+ JsString.join "/" segs).
  { intros segs Hne H1 H2. rewrite Hd, join_rooted by assumption.
    apply rooted_app; assumption. }
  assert (Hout : outputPath dir config r l t
                 = DIST_DIR dir +:+ "/" +:+ outputName config r l t).
  { unfold outputPath. rewrite outputName_segments. apply Hunder.
    - intros E. apply app_eq_nil in E as [_ E]. discriminate.
    - apply Forall_app. split; [apply canonicalRoute_segments; exact Hr|].
      constructor; [apply fileName_plain|constructor].
    - apply Forall_app. split.
      + unfold routeSegments. destruct (String.eqb r "/"); [constructor|].
        apply split_segments_lack.
      + constructor; [apply fileName_lacks_slash; assumption|constructor]. }
  split; [exact Hd|]. split; [exact Hout|].
  intros artifact Hin.
  assert (Ha : Path.join [DIST_DIR dir; artifact] = DIST_DIR dir +:+ "/" +:+ artifact).
  { cbn [In] in Hin.
    destruct Hin as [<-|[<-|[<-|[]]]];
      match goal with
      | |- Path.join [_; ?a] = _ =>
          change a with (JsString.join "/" [a]) at 1;
          rewrite Hunder; [reflexivity|discriminate|repeat constructor|repeat constructor]
      end. }
  split; [exact Ha|]. rewrite Ha, Hout. intros E.
  apply sapp_inv_head in E. apply sapp_inv_head in E.
  pose proof (endsWith_complete
                (outputFile r +:+ themeSuffix config t +:+ localeSuffix config l) ".html") as He.
  unfold outputName in E. rewrite !sapp_assoc in He. rewrite E in He.
  cbn [In] in Hin. destruct Hin as [<-|[<-|[<-|[]]]]; discriminate.
Qed.

Lemma output_files_under_root_witness :
  JsString.startsWith demoDir "/" = true
  /\ canonicalRoute "/about" = true /\ plainCode "en" = true /\ plainCode "dark" = true
  /\ outputPath demoDir demoConfig "/about" "en" "dark"
     = DIST_DIR demoDir +:+ "/" +:+ outputName demoConfig "/about" "en" "dark".
Proof.
  repeat (split; [reflexivity|]).
  exact (proj1 (proj2 (output_files_under_root demoDir demoConfig "/about" "en" "dark"
                         eq_refl eq_refl eq_refl eq_refl))).
Defined.

(** ** Stopping the preview server *)

(** Stopping the preview server never throws and touches no file.  With
    no server held, or one already marked as killed, it does nothing at
    all: no signal and no log line.  With a live server it logs one line
    and calls [kill]: when the signal is delivered, exactly one SIGTERM is
    sent and the server is left marked as killed, so that stopping a second
    time changes nothing; when the signal is not delivered, nothing is sent
    and the server is not marked; when [kill] throws, nothing is sent and a
    warning is logged. *)
Theorem stop_server_idempotent (env : Env) (st : State) :
  let st' := snd (stopHeldServer env st) in
  fst (stopHeldServer env st) = Normal tt
  /\ files st' = files st /\ dirs st' = dirs st
  /\ match serverProcess st with
     | Some sp =>
         if killed sp then st' = st
         else
           match killOutcome env with
           | Delivered =>
               signals st' = signals st ++ ["SIGTERM"]
               /\ serverProcess st' = Some {| pid := pid sp; killed := true |}
               /\ console st' = console st ++ [(Stdout, "[INFO] Stopping preview server")]
               /\ stopHeldServer env st' = (Normal tt, st')
           | NotDelivered =>
               signals st' = signals st /\ serverProcess st' = Some sp
               /\ console st' = console st ++ [(Stdout, "[INFO] Stopping preview server")]
           | KillThrows error =>
               signals st' = signals st /\ serverProcess st' = Some sp
               /\ console st'
                  = console st ++ [(Stdout, "[INFO] Stopping preview server");
                                   (Stdout, "[WARNING] Server stop error: "
                                            +:+ err_message error)]
           end
     | None => st' = st
     end.
Proof.
  unfold stopHeldServer, stopPreviewServer.
  destruct (serverProcess st) as [[p k]|] eqn:Esp.
  - destruct k.
    + run_m. rewrite ?Esp. cbn [killed negb]. repeat split; reflexivity.
    + destruct (killOutcome env) as [| |e] eqn:Ek.
      * run_m. rewrite ?Esp. cbn [killed negb]. run_m. rewrite ?Ek. run_m.
        rewrite ?Esp. cbn [killed negb pid]. repeat split; reflexivity.
      * run_m. rewrite ?Esp. cbn [killed negb]. run_m. rewrite ?Ek. run_m.
        rewrite ?Esp. repeat split; reflexivity.
      * run_m. rewrite ?Esp. cbn [killed negb]. run_m. rewrite ?Ek. run_m.
        rewrite ?Esp, <- ?List.app_assoc. repeat split; reflexivity.
  - run_m. rewrite ?Esp. repeat split; reflexivity.
Qed.

(** ** The edge-routing script *)

Lemma drop_app (p b : string) : JsString.drop (String.length p) (p +:+ b) = b.
Proof.
  induction p as [|c p IH]; [rewrite sapp_nil_l; destruct b; reflexivity|].
  rewrite sapp_cons. cbn [String.length JsString.drop]. exact IH.
Qed.

Lemma startsWith_extend (s p b : string) :
  String.length p <= String.length s ->
  JsString.startsWith (s +:+ b) p = JsString.startsWith s p.
Proof.
  revert s. induction p as [|c p IH]; intros s H.
  - destruct s, b; reflexivity.
  - destruct s as [|d s]; [cbn [String.length] in H; lia|].
    rewrite sapp_cons. cbn [JsString.startsWith]. rewrite IH; [reflexivity|].
    cbn [String.length] in H. lia.
Qed.

(** The first occurrence of a placeholder stays the first one when text is
    appended after it. *)
Lemma cut_extend (a p b : string) :
  placeholderFirst a p -> JsString.cut (a +:+ p +:+ b) p = Some (a, b).
Proof.
  unfold placeholderFirst. induction a as [|x a IH]; intros H.
  - rewrite sapp_nil_l, cut_unfold, startsWith_complete, drop_app. reflexivity.
  - rewrite sapp_cons, cut_unfold in H.
    destruct (JsString.startsWith (String x (a +:+ p)) p) eqn:E; [discriminate|].
    destruct (JsString.cut (a +:+ p) p) as [[b0 a0]|] eqn:Ec; [|discriminate].
    injection H as -> ->.
    rewrite sapp_cons, cut_unfold.
    replace (String x (a +:+ p +:+ b)) with (String x (a +:+ p) +:+ b)
      by (rewrite sapp_cons, sapp_assoc; reflexivity).
    rewrite startsWith_extend, E.
    + rewrite (IH eq_refl). reflexivity.
    + cbn [String.length]. rewrite sapp_length. lia.
Qed.

Lemma replace_first (a p b r : string) :
  placeholderFirst a p -> JsString.lacks "$" r = true ->
  JsString.replace (a +:+ p +:+ b) p r = a +:+ r +:+ b.
Proof.
  intros H Hr. unfold JsString.replace. rewrite (cut_extend a p b H).
  rewrite getSubstitution_plain by exact Hr. reflexivity.
Qed.

Lemma jsonChar_lacks_dollar (c : ascii) :
  Ascii.eqb c "$" = false -> JsString.lacks "$" (jsonChar c) = true.
Proof.
  destruct c as [[] [] [] [] [] [] [] []]; intros H;
    first [discriminate H | vm_compute; reflexivity].
Qed.

Lemma jsonChars_lacks_dollar (s : string) :
  JsString.lacks "$" s = true -> JsString.lacks "$" (jsonChars s) = true.
Proof.
  induction s as [|c s IH]; [reflexivity|].
  cbn [JsString.lacks jsonChars]. intros [Hc Hs]%andb_true_iff.
  apply negb_true_iff in Hc. rewrite lacks_app, jsonChar_lacks_dollar, IH by assumption.
  reflexivity.
Qed.

Lemma jsonStringArray_lacks_dollar (l : list string) :
  forallb (JsString.lacks "$") l = true ->
  JsString.lacks "$" (jsonStringArray l) = true.
Proof.
  intros H. unfold jsonStringArray. rewrite !lacks_app.
  rewrite lacks_join; [reflexivity|reflexivity|].
  induction l as [|s l IH]; [constructor|].
  cbn [forallb] in H. apply andb_true_iff in H as [Hs H].
  cbn [map]. constructor; [|exact (IH H)].
  rewrite !lacks_app, jsonChars_lacks_dollar by exact Hs. reflexivity.
Qed.

Lemma quoted_lacks_dollar (s : string) :
  JsString.lacks "$" s = true -> JsString.lacks "$" (quoted s) = true.
Proof. intros H. unfold quoted. rewrite !lacks_app, H. reflexivity. Qed.

(** In a template in which the four placeholders occur in the order the
    script fills them, each is replaced by its configuration value and the
    text around them is kept: the locales and themes as JSON arrays, the
    default locale and default theme between single quotes.  It holds when
    no configured code holds a dollar sign, and when each placeholder is
    the first occurrence of its text in what precedes it at the moment it
    is filled, the values filled in before it included. *)
Theorem worker_placeholders_filled (config : Config) (t0 t1 t2 t3 t4 : string) :
  let s1 := t0 +:+ jsonStringArray (locales config) +:+ t1 in
  let s2 := s1 +:+ quoted (default_locale config) +:+ t2 in
  let s3 := s2 +:+ jsonStringArray (themes config) +:+ t3 in
  forallb (JsString.lacks "$") (locales config) = true ->
  forallb (JsString.lacks "$") (themes config) = true ->
  JsString.lacks "$" (default_locale config) = true ->
  JsString.lacks "$" (default_theme config) = true ->
  placeholderFirst t0 "__LOCALES__" ->
  placeholderFirst s1 "__DEFAULT_LOCALE__" ->
  placeholderFirst s2 "__THEMES__" ->
  placeholderFirst s3 "__DEFAULT_THEME__" ->
  workerCode config
    (t0 +:+ "__LOCALES__" +:+ t1 +:+ "__DEFAULT_LOCALE__" +:+ t2 +:+ "__THEMES__"
     +:+ t3 +:+ "__DEFAULT_THEME__" +:+ t4)
  = s3 +:+ quoted (default_theme config) +:+ t4.
Proof.
  intros s1 s2 s3 Hl Ht Hdl Hdt H0 H1 H2 H3. unfold workerCode.
  fold (quoted (default_locale config)). fold (quoted (default_theme config)).
  rewrite (replace_first t0 "__LOCALES__" _ _ H0 (jsonStringArray_lacks_dollar _ Hl)).
  replace (t0 +:+ jsonStringArray (locales config) +:+ t1 +:+ "__DEFAULT_LOCALE__" +:+ t2
           +:+ "__THEMES__" +:+ t3 +:+ "__DEFAULT_THEME__" +:+ t4)
    with (s1 +:+ "__DEFAULT_LOCALE__" +:+ t2 +:+ "__THEMES__" +:+ t3
          +:+ "__DEFAULT_THEME__" +:+ t4)
    by (unfold s1; rewrite !sapp_assoc; reflexivity).
  rewrite (replace_first s1 "__DEFAULT_LOCALE__" _ _ H1 (quoted_lacks_dollar _ Hdl)).
  replace (s1 +:+ quoted (default_locale config) +:+ t2 +:+ "__THEMES__" +:+ t3
           +:+ "__DEFAULT_THEME__" +:+ t4)
    with (s2 +:+ "__THEMES__" +:+ t3 +:+ "__DEFAULT_THEME__" +:+ t4)
    by (unfold s2; rewrite !sapp_assoc; reflexivity).
  rewrite (replace_first s2 "__THEMES__" _ _ H2 (jsonStringArray_lacks_dollar _ Ht)).
  replace (s2 +:+ jsonStringArray (themes config) +:+ t3 +:+ "__DEFAULT_THEME__" +:+ t4)
    with (s3 +:+ "__DEFAULT_THEME__" +:+ t4)
    by (unfold s3; rewrite !sapp_assoc; reflexivity).
  apply (replace_first s3 "__DEFAULT_THEME__" _ _ H3 (quoted_lacks_dollar _ Hdt)).
Qed.

Lemma worker_placeholders_filled_witness :
  workerCode demoConfig
    ("const LOCALES = __LOCALES__; const DEFAULT_LOCALE = __DEFAULT_LOCALE__; "
     +:+ "const THEMES = __THEMES__; const DEFAULT_THEME = __DEFAULT_THEME__;")
  = "const LOCALES = [" +:+ dq +:+ "tr" +:+ dq +:+ "," +:+ dq +:+ "en" +:+ dq
    +:+ "]; const DEFAULT_LOCALE = 'tr'; const THEMES = [" +:+ dq +:+ "light" +:+ dq
    +:+ "," +:+ dq +:+ "dark" +:+ dq +:+ "]; const DEFAULT_THEME = 'light';".
Proof.
  exact (worker_placeholders_filled demoConfig
           "const LOCALES = " "; const DEFAULT_LOCALE = " "; const THEMES = "
           "; const DEFAULT_THEME = " ";"
           eq_refl eq_refl eq_refl eq_refl eq_refl eq_refl eq_refl eq_refl).
Defined.
